(** * ai-code-typer: the three repair scripts

    A shallow embedding of [check_braces.py], [fix_app_context.py] and
    [restore_app_context.py].  Each script is a straight-line program over
    the text of one file: the embedding takes what [open(...).read()] or
    [readlines()] returned as its input and records what the script prints
    and writes as a list of events.  A Python [str] is a [string], one
    [ascii] per character; indices and positions are natural numbers. *)

From Stdlib Require Import List String Ascii Arith Lia Bool Sorted.
Import ListNotations.

Local Open Scope list_scope.

(** ** check_braces.py *)

Module CheckBraces.

(** The tuples [(i + 1, j + 1)] held by [stack]. *)
Definition Position : Type := (nat * nat)%type.

(** One constructor per [print] of the script, with the values that are
    interpolated into its f-string. *)
Inductive Msg : Type :=
| ExtraClosing (line col : nat)   (* "Extra closing brace at line {i + 1}, col {j + 1}" *)
| UnclosedCount (n : nat)         (* "Unclosed braces: {len(stack)}" *)
| UnclosedAt (line col : nat)     (* "Unclosed brace at line {item[0]}, col {item[1]}" *)
| Balanced.                       (* "Braces are balanced." *)

(** The module-level list [stack] (bottom first: [append] adds at the end,
    [pop()] removes the last element) together with what was printed so far. *)
Record State : Type := mkState { stack : list Position; out : list Msg }.

Definition init : State := {| stack := []; out := [] |}.

(** Body of the inner loop, for the character [char] at 0-based indices
    [i] (line) and [j] (column). *)
Definition visit (i j : nat) (char : ascii) (s : State) : State :=
  if Ascii.eqb char "{" then
    {| stack := stack s ++ [(i + 1, j + 1)]; out := out s |}
  else if Ascii.eqb char "}" then
    match stack s with
    | [] => {| stack := stack s; out := out s ++ [ExtraClosing (i + 1) (j + 1)] |}
    | _ :: _ => {| stack := removelast (stack s); out := out s |}
    end
  else s.

(** [for j, char in enumerate(line)], entered with [j] the index of the
    next character. *)
Fixpoint scan_line (i j : nat) (line : string) (s : State) : State :=
  match line with
  | EmptyString => s
  | String char rest => scan_line i (S j) rest (visit i j char s)
  end.

(** [for i, line in enumerate(lines)], entered with [i] the index of the
    next line. *)
Fixpoint scan_lines (i : nat) (lines : list string) (s : State) : State :=
  match lines with
  | [] => s
  | line :: rest => scan_lines (S i) rest (scan_line i 0 line s)
  end.

(** The final [if stack: ... else: ...]. *)
Definition final (s : State) : list Msg :=
  match stack s with
  | [] => out s ++ [Balanced]
  | _ :: _ =>
      out s ++ UnclosedCount (List.length (stack s))
            :: map (fun item => UnclosedAt (fst item) (snd item)) (stack s)
  end.

(** The whole script, from the result of [f.readlines()] to its output. *)
Definition main (lines : list string) : list Msg :=
  final (scan_lines 0 lines init).

(** *** The report read off the output *)

Record Report : Type :=
  mkReport { balanced : bool;
             extraClosing : list Position;
             unclosed : list Position }.

Definition is_Balanced (m : Msg) : bool :=
  match m with Balanced => true | _ => false end.

Definition extra_of (m : Msg) : list Position :=
  match m with ExtraClosing l c => [(l, c)] | _ => [] end.

Definition unclosed_of (m : Msg) : list Position :=
  match m with UnclosedAt l c => [(l, c)] | _ => [] end.

Definition is_extra (m : Msg) : bool :=
  match m with ExtraClosing _ _ => true | _ => false end.

Definition report_of (msgs : list Msg) : Report :=
  {| balanced := existsb is_Balanced msgs;
     extraClosing := flat_map extra_of msgs;
     unclosed := flat_map unclosed_of msgs |}.

Definition check (lines : list string) : Report := report_of (main lines).

(** *** The character stream of the specification *)

(** The elements of [l] paired with their 1-based rank. *)
Definition numbered {A : Type} (l : list A) : list (nat * A) :=
  combine (seq 1 (List.length l)) l.

(** Every character of the text with its position, lines first, then
    columns. *)
Definition char_stream (lines : list string) : list (Position * ascii) :=
  flat_map
    (fun nl => map (fun nc => ((fst nl, fst nc), snd nc))
                   (numbered (list_ascii_of_string (snd nl))))
    (numbered lines).

(** The characters of one line, numbered from column [j + 1]. *)
Definition line_stream (i j : nat) (line : string) : list (Position * ascii) :=
  map (fun nc => ((i + 1, fst nc), snd nc))
      (combine (seq (j + 1) (List.length (list_ascii_of_string line)))
               (list_ascii_of_string line)).

(** The characters of the lines, numbered from line [i + 1]. *)
Definition lines_stream (i : nat) (lines : list string) : list (Position * ascii) :=
  flat_map
    (fun nl => map (fun nc => ((fst nl, fst nc), snd nc))
                   (numbered (list_ascii_of_string (snd nl))))
    (combine (seq (i + 1) (List.length lines)) lines).

(** The occurrences of [c] in a line and in the whole text. *)
Fixpoint occurrences (c : ascii) (line : string) : nat :=
  match line with
  | EmptyString => 0
  | String x rest => (if Ascii.eqb x c then 1 else 0) + occurrences c rest
  end.

Definition total_occurrences (c : ascii) (lines : list string) : nat :=
  list_sum (map (occurrences c) lines).

(** The occurrences of [c] in a stream of positioned characters. *)
Definition stream_count (c : ascii) (cs : list (Position * ascii)) : nat :=
  List.length (filter (fun pc => Ascii.eqb (snd pc) c) cs).

(** The transition of the specification: push on an opening brace, pop or
    report on a closing one, ignore everything else. *)
Definition spec_step (s : State) (pc : Position * ascii) : State :=
  let '(p, c) := pc in
  if Ascii.eqb c "{" then mkState (stack s ++ [p]) (out s)
  else if Ascii.eqb c "}" then
    match stack s with
    | [] => mkState [] (out s ++ [ExtraClosing (fst p) (snd p)])
    | _ :: _ => mkState (removelast (stack s)) (out s)
    end
  else s.

(** *** Counting braces *)

Definition is_open (c : ascii) : bool := Ascii.eqb c "{".
Definition is_close (c : ascii) : bool := Ascii.eqb c "}".

(** [closes d w]: [w] contains the closing brace of an opening brace that
    has [d] further opening braces pending after it. *)
Fixpoint closes (d : nat) (w : list ascii) : bool :=
  match w with
  | [] => false
  | c :: w' =>
      if is_open c then closes (S d) w'
      else if is_close c then
        match d with
        | 0 => true
        | S d' => closes d' w'
        end
      else closes d w'
  end.

(** The opening braces of [w] that no closing brace of [w] matches. *)
Fixpoint unmatched_opens (w : list ascii) : nat :=
  match w with
  | [] => 0
  | c :: w' =>
      (if is_open c && negb (closes 0 w') then 1 else 0) + unmatched_opens w'
  end.

(** Of [n] pending opening braces, the innermost with [d] further ones
    pending after it, those that no closing brace of [w] matches. *)
Fixpoint pending (n d : nat) (w : list ascii) : nat :=
  match n with
  | 0 => 0
  | S n' => (if closes d w then 0 else 1) + pending n' (S d) w
  end.

(** The closing braces of the stream that are met with a non-empty stack
    when the scan starts in [s]. *)
Fixpoint matched_closes (cs : list (Position * ascii)) (s : State) : nat :=
  match cs with
  | [] => 0
  | pc :: cs' =>
      (if is_close (snd pc) && negb (List.length (stack s) =? 0) then 1 else 0)
      + matched_closes cs' (spec_step s pc)
  end.

(** Lexicographic order on positions: line first, then column. *)
Definition pos_lt (p q : Position) : Prop :=
  fst p < fst q \/ (fst p = fst q /\ snd p < snd q).

(** [x] comes before [y] in the text. *)
Definition before (x y : Position * ascii) : Prop := pos_lt (fst x) (fst y).

(** *** The script body executed in a namespace *)

(** The global names the script reads, with the values an earlier
    execution of the body in the same namespace may have left bound to
    them: [lines] and [stack].  (The loop variables are bound by their
    [for] before they are read.) *)
Record Namespace : Type :=
  mkNamespace { ns_lines : list string; ns_stack : list Position }.

(** Line 7, [lines = f.readlines()], for a file holding [file]. *)
Definition bind_lines (file : list string) (g : Namespace) : Namespace :=
  {| ns_lines := file; ns_stack := ns_stack g |}.

(** Line 9, [stack = []]. *)
Definition bind_stack (g : Namespace) : Namespace :=
  {| ns_lines := ns_lines g; ns_stack := [] |}.

(** Lines 10 to 18: the loops read the globals [lines] and [stack], print,
    and leave [stack] as they made it. *)
Definition exec_loops (g : Namespace) : Namespace * list Msg :=
  let s := scan_lines 0 (ns_lines g) {| stack := ns_stack g; out := [] |} in
  ({| ns_lines := ns_lines g; ns_stack := stack s |}, out s).

(** Lines 20 to 25: the verdict reads the global [stack]. *)
Definition exec_verdict (g : Namespace) : list Msg :=
  final {| stack := ns_stack g; out := [] |}.

(** The whole body, statement after statement, started in the namespace
    [g]: the namespace it leaves and what it prints. *)
Definition exec_script (file : list string) (g : Namespace) : Namespace * list Msg :=
  let g1 := bind_lines file g in
  let g2 := bind_stack g1 in
  let (g3, printed) := exec_loops g2 in
  (g3, printed ++ exec_verdict g3).

(** The loops and the verdict alone, without the two assignments before
    them. *)
Definition exec_tail (g : Namespace) : Namespace * list Msg :=
  let (g3, printed) := exec_loops g in
  (g3, printed ++ exec_verdict g3).

(** *** Well-nested text *)

(** The characters of the text, line after line. *)
Definition chars (lines : list string) : list ascii :=
  List.concat (map list_ascii_of_string lines).

(** Texts in which every brace has its partner: nothing, a character that
    is no brace before such a text, or a pair of braces around such a text
    and before another. *)
Inductive well_nested : list ascii -> Prop :=
| wn_nil : well_nested []
| wn_other (c : ascii) (w : list ascii) :
    is_open c = false -> is_close c = false ->
    well_nested w -> well_nested (c :: w)
| wn_pair (u v : list ascii) :
    well_nested u -> well_nested v ->
    well_nested ("{"%char :: u ++ "}"%char :: v).

(** Texts that close [d] pending opening braces, outermost last, and are
    well nested apart from that. *)
Inductive closes_all : nat -> list ascii -> Prop :=
| ca_zero (w : list ascii) : well_nested w -> closes_all 0 w
| ca_succ (d : nat) (u v : list ascii) :
    well_nested u -> closes_all d v -> closes_all (S d) (u ++ "}"%char :: v).

(** The lines the script prints for a report. *)
Definition render (r : Report) : list Msg :=
  map (fun p => ExtraClosing (fst p) (snd p)) (extraClosing r)
  ++ match unclosed r with
     | [] => [Balanced]
     | _ :: _ =>
         UnclosedCount (List.length (unclosed r))
         :: map (fun p => UnclosedAt (fst p) (snd p)) (unclosed r)
     end.


End CheckBraces.

(** ** Strings as the two patch scripts use them *)

Module PyStr.

Local Open Scope string_scope.

(** [sub in s]. *)
Fixpoint contains (sub s : string) : bool :=
  if prefix sub s then true
  else match s with
       | EmptyString => false
       | String _ s' => contains sub s'
       end.

(** [sub] occurs in [s]. *)
Definition Substring (sub s : string) : Prop :=
  exists pre suf, s = pre ++ sub ++ suf.

(** [old] occurs in [s] right after [pre], and not earlier. *)
Definition first_at (old pre s : string) : Prop :=
  (exists rest, s = pre ++ old ++ rest)
  /\ forall pre' rest', s = pre' ++ old ++ rest' ->
                        (String.length pre <= String.length pre')%nat.

(** [s.find(sub)]: the lowest index at which [sub] occurs, [None] for -1. *)
Fixpoint find (sub s : string) : option nat :=
  if prefix sub s then Some 0
  else match s with
       | EmptyString => None
       | String _ s' => option_map S (find sub s')
       end.

(** [s.replace("", new)]: [new] before every character and at the end. *)
Fixpoint intersperse (new s : string) : string :=
  match s with
  | EmptyString => new
  | String c s' => new ++ String c (intersperse new s')
  end.

(** [s.replace(old, new)] for a non-empty [old], left to right over
    non-overlapping occurrences; [skip] characters of an occurrence just
    replaced are still to be dropped. *)
Fixpoint replace_from (skip : nat) (old new s : string) : string :=
  match s with
  | EmptyString => EmptyString
  | String c s' =>
      match skip with
      | S k => replace_from k old new s'
      | 0 =>
          if prefix old s
          then new ++ replace_from (String.length old - 1) old new s'
          else String c (replace_from 0 old new s')
      end
  end.

Definition replace (old new s : string) : string :=
  match old with
  | EmptyString => intersperse new s
  | String _ _ => replace_from 0 old new s
  end.

(** [s] and what is left of it after each of its characters. *)
Fixpoint suffixes (s : string) : list string :=
  s :: match s with
       | EmptyString => []
       | String _ s' => suffixes s'
       end.

(** No non-empty string of [l] is a prefix of [s]. *)
Definition none_prefix_of (s : string) (l : list string) : bool :=
  forallb (fun v => match v with
                    | EmptyString => true
                    | String _ _ => negb (prefix v s)
                    end) l.

(** Putting [new] in place of [old] cannot make a new occurrence of [old]:
    [old] does not occur in [new], is shorter, and no end of the one is a
    beginning of the other. *)
Definition clean_replacement (old new : string) : bool :=
  negb (contains old new)
  && (String.length old <? String.length new)%nat
  && none_prefix_of new (suffixes old)
  && none_prefix_of old (suffixes new).


(** [str.isspace] on the code points below 256. *)
Definition is_space (c : ascii) : bool :=
  let n := nat_of_ascii c in
  (((9 <=? n) && (n <=? 13)) || ((28 <=? n) && (n <=? 32))
   || (n =? 133) || (n =? 160))%nat.

Fixpoint lstrip (s : string) : string :=
  match s with
  | EmptyString => EmptyString
  | String c s' => if is_space c then lstrip s' else s
  end.

Fixpoint rstrip (s : string) : string :=
  match s with
  | EmptyString => EmptyString
  | String c s' =>
      match rstrip s' with
      | EmptyString => if is_space c then EmptyString else String c EmptyString
      | r => String c r
      end
  end.

(** Every character of [s] is white space. *)
Fixpoint all_space (s : string) : bool :=
  match s with
  | EmptyString => true
  | String c s' => is_space c && all_space s'
  end.


(** [s.strip()]. *)
Definition strip (s : string) : string := rstrip (lstrip s).

(** What a script does to the outside: a line on the console, or the file
    reopened with mode ['w'] and given new content. *)
Inductive Event : Type :=
| Printed (text : string)
| Written (content : string).

Definition is_write (e : Event) : bool :=
  match e with Written _ => true | Printed _ => false end.

(** The content of the file once the events have happened. *)
Fixpoint file_after (content : string) (evs : list Event) : string :=
  match evs with
  | [] => content
  | Written c :: evs' => file_after c evs'
  | Printed _ :: evs' => file_after content evs'
  end.

End PyStr.

(** ** fix_app_context.py *)

Module FixAppContext.

Import PyStr.
Local Open Scope string_scope.

Definition broken_block : string :=
"  }, []);
}
  }, [selectedLanguage, snippetLength, snippetLevel, isLoadingSnippet, practiceMode, generalContentTypes]);".

Definition replacement_block : string :=
"  }, []);

  const fetchNewSnippet = useCallback(async (mode: 'code' | 'general' | 'targeted' = practiceMode, targetedKeysOverride?: string[]) => {
    if (isLoadingSnippet) return;

    setIsLoadingSnippet(true);
    setSnippet('');
    setSnippetError(null);
    setIsCustomSession(false);
    
    // Clear targeted keys if switching away from targeted mode, unless we are starting a new targeted session
    if (mode !== 'targeted') {
        setCurrentTargetedKeys([]);
    }

    try {
      let newSnippet = '';
      if (mode === 'code') {
        newSnippet = await generateCodeSnippet(selectedLanguage, snippetLength, snippetLevel);
      } else if (mode === 'targeted') {
         const keys = targetedKeysOverride || currentTargetedKeys;
         if (keys.length > 0) {
             newSnippet = await generateTargetedCodeSnippet(selectedLanguage, keys, snippetLength, snippetLevel);
         } else {
             // Fallback if no keys
             newSnippet = await generateCodeSnippet(selectedLanguage, snippetLength, snippetLevel);
         }
      } else {
        newSnippet = await generateGeneralSnippet(snippetLength, snippetLevel, generalContentTypes);
      }
      setSnippet(convertSpacesToTabs(newSnippet));
      setSessionResetKey(prev => prev + 1);
    } catch (err) {
      const errorMessage = err instanceof Error ? err.message : 'Failed to generate snippet. Please try again.';
      setSnippetError(errorMessage);
      setSessionResetKey(prev => prev + 1);
      console.error(err);
    } finally {
      setIsLoadingSnippet(false);
    }
  }, [selectedLanguage, snippetLength, snippetLevel, isLoadingSnippet, practiceMode, generalContentTypes, currentTargetedKeys]);".

Definition start_marker : string := "const setRequestFocusOnCodeCallback".

(** The script, from [content = f.read()] on. *)
Definition main (content : string) : list Event :=
  if contains broken_block content then
    let new_content := replace broken_block replacement_block content in
    [Written new_content; Printed "Successfully fixed AppContext.tsx"]
  else
    Printed "Could not find the broken block in AppContext.tsx"
    :: match find start_marker content with
       | Some idx =>
           [Printed "Context around setRequestFocusOnCodeCallback:";
            Printed (substring idx 300 content)]
       | None => []
       end.

End FixAppContext.

(** ** restore_app_context.py *)

Module RestoreAppContext.

Import PyStr.
Local Open Scope string_scope.

Inductive Exn : Type := IndexError.

(** How a run ends: what it did, and the exception that stopped it, if any. *)
Record Outcome : Type := mkOutcome { events : list Event; raised : option Exn }.

(** [l[k]] for a non-negative [k]. *)
Definition getitem (l : list string) (k : nat) : Exn + string :=
  match nth_error l k with
  | Some x => inr x
  | None => inl IndexError
  end.

(** [l[k] = v] for a non-negative [k]. *)
Definition setitem (l : list string) (k : nat) (v : string) : Exn + list string :=
  if (k <? List.length l)%nat then inr (firstn k l ++ v :: skipn (S k) l)%list
  else inl IndexError.

Definition new_code : string :=
"  const fetchNewSnippet = useCallback(async (mode: 'code' | 'general' | 'targeted' = practiceMode, targetedKeysOverride?: string[]) => {
    if (isLoadingSnippet) return;

    setIsLoadingSnippet(true);
    setSnippet('');
    setSnippetError(null);
    setIsCustomSession(false);
    
    // Clear targeted keys if switching away from targeted mode, unless we are starting a new targeted session
    if (mode !== 'targeted') {
        setCurrentTargetedKeys([]);
    }

    try {
      let newSnippet = '';
      if (mode === 'code') {
        newSnippet = await generateCodeSnippet(selectedLanguage, snippetLength, snippetLevel);
      } else if (mode === 'targeted') {
         const keys = targetedKeysOverride || currentTargetedKeys;
         if (keys.length > 0) {
             newSnippet = await generateTargetedCodeSnippet(selectedLanguage, keys, snippetLength, snippetLevel);
         } else {
             // Fallback if no keys
             newSnippet = await generateCodeSnippet(selectedLanguage, snippetLength, snippetLevel);
         }
      } else {
        newSnippet = await generateGeneralSnippet(snippetLength, snippetLevel, generalContentTypes);
      }
      setSnippet(convertSpacesToTabs(newSnippet));
      setSessionResetKey(prev => prev + 1);
    } catch (err) {
      const errorMessage = err instanceof Error ? err.message : 'Failed to generate snippet. Please try again.';
      setSnippetError(errorMessage);
      setSessionResetKey(prev => prev + 1);
      console.error(err);
    } finally {
      setIsLoadingSnippet(false);
    }
  }, [selectedLanguage, snippetLength, snippetLevel, isLoadingSnippet, practiceMode, generalContentTypes, currentTargetedKeys]);
".

Definition newline : string := String (ascii_of_nat 10) EmptyString.

(** The body of [if line_296 == ... :], entered after the three prints. *)
Definition apply_fix (lines : list string) (printed : list Event) : Outcome :=
  let printed := (printed ++ [Printed "Found broken block. Applying fix..."])%list in
  match setitem lines 295 "" with
  | inl e => mkOutcome printed (Some e)
  | inr lines1 =>
      match setitem lines1 296 (new_code ++ newline) with
      | inl e => mkOutcome printed (Some e)
      | inr lines2 =>
          mkOutcome
            (printed ++ [Written (String.concat "" lines2);
                         Printed "Successfully restored AppContext.tsx"])%list
            None
      end
  end.

(** The script, from [lines = f.readlines()] on. *)
Definition main (lines : list string) : Outcome :=
  match getitem lines 294 with
  | inl e => mkOutcome [] (Some e)
  | inr l294 =>
      let line_295 := strip l294 in
      match getitem lines 295 with
      | inl e => mkOutcome [] (Some e)
      | inr l295 =>
          let line_296 := strip l295 in
          match getitem lines 296 with
          | inl e => mkOutcome [] (Some e)
          | inr l296 =>
              let line_297 := strip l296 in
              let printed :=
                [Printed ("Line 295: " ++ line_295);
                 Printed ("Line 296: " ++ line_296);
                 Printed ("Line 297: " ++ line_297)] in
              if String.eqb line_296 "}" && prefix "}, [selectedLanguage" line_297
              then apply_fix lines printed
              else mkOutcome (printed ++ [Printed "Context mismatch. Aborting."])%list None
          end
      end
  end.

(** The test of the script on lines 296 and 297 of the file. *)
Definition broken_context (l295 l296 : string) : bool :=
  String.eqb (strip l295) "}" && prefix "}, [selectedLanguage" (strip l296).

(** The three lines the script prints first. *)
Definition shown (l294 l295 l296 : string) : list Event :=
  [Printed ("Line 295: " ++ strip l294);
   Printed ("Line 296: " ++ strip l295);
   Printed ("Line 297: " ++ strip l296)].


End RestoreAppContext.

(** ** Facts about check_braces.py *)

Module CheckBracesFacts.

Import CheckBraces.

(** *** The nested loops are one fold over the character stream *)

Lemma visit_spec_step (i j : nat) (c : ascii) (s : State) :
  visit i j c s = spec_step s ((i + 1, j + 1), c).
Proof.
  unfold visit, spec_step.
  destruct (Ascii.eqb c "{"); [reflexivity|].
  destruct (Ascii.eqb c "}"); [|reflexivity].
  destruct (stack s) eqn:E; reflexivity.
Qed.

Lemma line_stream_cons (i j : nat) (c : ascii) (rest : string) :
  line_stream i j (String c rest) = ((i + 1, j + 1), c) :: line_stream i (S j) rest.
Proof.
  unfold line_stream. simpl. now rewrite Nat.add_1_r.
Qed.

Lemma lines_stream_cons (i : nat) (line : string) (rest : list string) :
  lines_stream i (line :: rest) = line_stream i 0 line ++ lines_stream (S i) rest.
Proof.
  unfold lines_stream, line_stream, numbered. simpl.
  now rewrite !Nat.add_1_r.
Qed.

Lemma char_stream_lines_stream (lines : list string) :
  char_stream lines = lines_stream 0 lines.
Proof. reflexivity. Qed.

Lemma scan_line_fold (line : string) :
  forall i j s, scan_line i j line s = fold_left spec_step (line_stream i j line) s.
Proof.
  induction line as [|c rest IH]; intros i j s.
  - reflexivity.
  - rewrite line_stream_cons. simpl fold_left. simpl scan_line.
    now rewrite IH, visit_spec_step.
Qed.

Lemma scan_lines_fold (lines : list string) :
  forall i s, scan_lines i lines s = fold_left spec_step (lines_stream i lines) s.
Proof.
  induction lines as [|line rest IH]; intros i s.
  - reflexivity.
  - rewrite lines_stream_cons, fold_left_app. simpl scan_lines.
    now rewrite IH, scan_line_fold.
Qed.

Lemma scan_fold (lines : list string) (s : State) :
  scan_lines 0 lines s = fold_left spec_step (char_stream lines) s.
Proof. now rewrite scan_lines_fold. Qed.

(** *** What the scan prints, and the report read off the output *)

Lemma spec_step_out (s : State) (pc : Position * ascii) :
  exists more, out (spec_step s pc) = out s ++ more /\ forallb is_extra more = true.
Proof.
  destruct pc as [p c]. unfold spec_step.
  destruct (Ascii.eqb c "{"); [exists []; simpl; now rewrite app_nil_r|].
  destruct (Ascii.eqb c "}"); [|exists []; simpl; now rewrite app_nil_r].
  destruct (stack s).
  - now exists [ExtraClosing (fst p) (snd p)].
  - exists []. simpl. now rewrite app_nil_r.
Qed.

Lemma fold_out (cs : list (Position * ascii)) :
  forall s, exists more,
    out (fold_left spec_step cs s) = out s ++ more /\ forallb is_extra more = true.
Proof.
  induction cs as [|pc cs IH]; intros s; simpl.
  - exists []. now rewrite app_nil_r.
  - destruct (IH (spec_step s pc)) as (m2 & E2 & F2).
    destruct (spec_step_out s pc) as (m1 & E1 & F1).
    exists (m1 ++ m2). rewrite E2, E1, app_assoc, forallb_app, F1, F2. now split.
Qed.

Lemma scan_out_extra (lines : list string) :
  forallb is_extra (out (scan_lines 0 lines init)) = true.
Proof.
  rewrite scan_fold. destruct (fold_out (char_stream lines) init) as (m & E & F).
  now rewrite E.
Qed.

Lemma extra_no_unclosed (msgs : list Msg) :
  forallb is_extra msgs = true ->
  flat_map unclosed_of msgs = [] /\ existsb is_Balanced msgs = false.
Proof.
  induction msgs as [|m msgs IH]; simpl; [now split|].
  intros H. apply andb_prop in H. destruct H as [Hm H].
  destruct (IH H) as [IH1 IH2]. destruct m; try discriminate; simpl; now split.
Qed.

Lemma unclosed_of_stack (st : list Position) :
  flat_map unclosed_of (map (fun item => UnclosedAt (fst item) (snd item)) st) = st.
Proof.
  induction st as [|[l c] st IH]; simpl; [reflexivity|]. now rewrite IH.
Qed.

Lemma extra_of_stack (st : list Position) :
  flat_map extra_of (map (fun item => UnclosedAt (fst item) (snd item)) st) = []
  /\ existsb is_Balanced (map (fun item => UnclosedAt (fst item) (snd item)) st) = false.
Proof.
  induction st as [|[l c] st [IH1 IH2]]; simpl; now split.
Qed.

(** The report in terms of the state the scan ends in. *)
Lemma report_of_final (s : State) :
  forallb is_extra (out s) = true ->
  report_of (final s)
  = mkReport (match stack s with [] => true | _ :: _ => false end)
             (flat_map extra_of (out s))
             (stack s).
Proof.
  intros H. destruct (extra_no_unclosed _ H) as [Hu Hb].
  unfold report_of, final. destruct (stack s) as [|p st] eqn:E.
  - rewrite !flat_map_app, existsb_app, Hu, Hb. simpl. now rewrite app_nil_r.
  - rewrite !flat_map_app, existsb_app, Hu, Hb.
    change (UnclosedCount (List.length (p :: st))
            :: map (fun item => UnclosedAt (fst item) (snd item)) (p :: st))
      with ([UnclosedCount (List.length (p :: st))]
            ++ map (fun item => UnclosedAt (fst item) (snd item)) (p :: st)).
    rewrite !flat_map_app, existsb_app, unclosed_of_stack.
    destruct (extra_of_stack (p :: st)) as [E1 E2]. rewrite E1, E2.
    simpl. now rewrite app_nil_r.
Qed.

Lemma check_eq (lines : list string) :
  check lines
  = mkReport (match stack (scan_lines 0 lines init) with [] => true | _ :: _ => false end)
             (flat_map extra_of (out (scan_lines 0 lines init)))
             (stack (scan_lines 0 lines init)).
Proof.
  unfold check, main. apply report_of_final, scan_out_extra.
Qed.

(** *** Positions in the character stream *)

Lemma in_combine_seq {A : Type} (l : list A) :
  forall a n x,
    In (n, x) (combine (seq a (List.length l)) l)
    <-> a <= n /\ nth_error l (n - a) = Some x.
Proof.
  induction l as [|y l IH]; intros a n x; simpl.
  - split; [intros []|]. intros [_ H]. now destruct (n - a).
  - rewrite IH. split.
    + intros [E|[Hle Hn]].
      * inversion E; subst. rewrite Nat.sub_diag. now split.
      * split; [lia|]. replace (n - a) with (S (n - S a)) by lia. exact Hn.
    + intros [Hle Hn]. destruct (Nat.eq_dec a n) as [->|Hne].
      * rewrite Nat.sub_diag in Hn. simpl in Hn. inversion Hn. now left.
      * right. split; [lia|].
        replace (n - a) with (S (n - S a)) in Hn by lia. exact Hn.
Qed.

(** The stream holds character [c] at position [(l, k)] exactly when [c]
    is the [k]-th character of the [l]-th line, both counted from 1. *)
Lemma char_stream_spec (lines : list string) (l k : nat) (c : ascii) :
  In ((l, k), c) (char_stream lines)
  <-> 1 <= l /\ 1 <= k
      /\ exists line,
           nth_error lines (l - 1) = Some line
           /\ nth_error (list_ascii_of_string line) (k - 1) = Some c.
Proof.
  unfold char_stream, numbered. rewrite in_flat_map. split.
  - intros ([n line] & Hl & Hc). apply in_combine_seq in Hl.
    apply in_map_iff in Hc. destruct Hc as ([m x] & E & Hc).
    simpl in E. inversion E; subst. apply in_combine_seq in Hc.
    destruct Hl as [Hl1 Hl2], Hc as [Hc1 Hc2]. eauto 6.
  - intros (Hl & Hk & line & Hl2 & Hc2). exists (l, line). split.
    + apply in_combine_seq. now split.
    + apply in_map_iff. exists (k, c). split; [reflexivity|].
      apply in_combine_seq. now split.
Qed.


(** *** The scan, step by step *)

Lemma visit_open (i j : nat) (s : State) :
  visit i j "{" s = mkState (stack s ++ [(i + 1, j + 1)]) (out s).
Proof. reflexivity. Qed.

Lemma visit_close_pop (i j : nat) (s : State) (rest : list Position) (top : Position) :
  stack s = rest ++ [top] -> visit i j "}" s = mkState rest (out s).
Proof.
  intros E. unfold visit. simpl. rewrite E.
  destruct (rest ++ [top]) eqn:E'.
  - now destruct rest.
  - now rewrite <- E', removelast_last.
Qed.

Lemma visit_close_empty (i j : nat) (s : State) :
  stack s = [] ->
  visit i j "}" s = mkState [] (out s ++ [ExtraClosing (i + 1) (j + 1)]).
Proof. intros E. unfold visit. simpl. now rewrite E. Qed.

Lemma visit_other (i j : nat) (c : ascii) (s : State) :
  is_open c = false -> is_close c = false -> visit i j c s = s.
Proof. unfold is_open, is_close, visit. now intros -> ->. Qed.

(** C1: the scan visits the characters line by line and column by column,
    numbering both from 1 (it is the left-to-right fold of the transition
    over [char_stream], which holds [c] at [(l, k)] exactly when [c] is the
    [k]-th character of the [l]-th line); the visit of an opening brace at
    0-based indices [i], [j] appends [(i + 1, j + 1)] to the stack, and the
    visit of a closing brace with a non-empty stack removes exactly its
    last entry, the one pushed most recently, and prints nothing. *)
Theorem scan_in_order_push_pop (lines : list string) :
  scan_lines 0 lines init = fold_left spec_step (char_stream lines) init
  /\ (forall l k c,
         In ((l, k), c) (char_stream lines)
         <-> 1 <= l /\ 1 <= k
             /\ exists line,
                  nth_error lines (l - 1) = Some line
                  /\ nth_error (list_ascii_of_string line) (k - 1) = Some c)
  /\ (forall i j c s, visit i j c s = spec_step s ((i + 1, j + 1), c))
  /\ (forall i j s,
         visit i j "{" s = mkState (stack s ++ [(i + 1, j + 1)]) (out s))
  /\ (forall i j s rest top,
         stack s = rest ++ [top] -> visit i j "}" s = mkState rest (out s)).
Proof.
  split; [apply scan_fold|].
  split; [apply char_stream_spec|].
  split; [apply visit_spec_step|].
  split; [apply visit_open|apply visit_close_pop].
Qed.

Lemma scan_in_order_push_pop_witness :
  scan_lines 0 ["{a"; "}"]%string init
  = fold_left spec_step
      [((1, 1), "{"%char); ((1, 2), "a"%char); ((2, 1), "}"%char)] init
  /\ visit 1 0 "}" (mkState [(1, 1)] []) = mkState [] [].
Proof.
  destruct (scan_in_order_push_pop ["{a"; "}"]%string) as (H1 & _ & _ & _ & H4).
  split; [exact H1|].
  apply (H4 1 0 (mkState [(1, 1)] []) [] (1, 1)). reflexivity.
Defined.

(** C2, at the input [["}"]]: the script prints the extra closing brace at
    line 1, column 1 and then "Braces are balanced.", so the report has
    [balanced = true] with a non-empty [extraClosing]. *)
Theorem balanced_despite_extra_closing :
  main ["}"%string] = [ExtraClosing 1 1; Balanced]
  /\ check ["}"%string] = mkReport true [(1, 1)] [].
Proof. split; reflexivity. Qed.

(** The verdict of the script looks at the stack only. *)
Lemma balanced_iff_unclosed_empty (lines : list string) :
  balanced (check lines) = true <-> unclosed (check lines) = [].
Proof.
  rewrite check_eq. simpl.
  destruct (stack (scan_lines 0 lines init)); split; intros H; try reflexivity; discriminate.
Qed.

(** C8: on the empty sequence of lines the script prints only "Braces are
    balanced.": the report is balanced and both defect lists are empty. *)
Theorem check_empty_input :
  main [] = [Balanced] /\ check [] = mkReport true [] [].
Proof. split; reflexivity. Qed.

(** *** A closing brace that nothing opened *)

Lemma in_extra_of (p : Position) (msgs : list Msg) :
  In (ExtraClosing (fst p) (snd p)) msgs -> In p (flat_map extra_of msgs).
Proof.
  intros H. apply in_flat_map. exists (ExtraClosing (fst p) (snd p)).
  split; [exact H|]. destruct p. now left.
Qed.

Lemma spec_step_close_empty (s : State) (p : Position) :
  stack s = [] ->
  spec_step s (p, "}"%char) = mkState [] (out s ++ [ExtraClosing (fst p) (snd p)]).
Proof. intros E. unfold spec_step. now rewrite E. Qed.

(** C6: a closing brace met with an empty stack, at 0-based indices [i],
    [j], prints the extra closing brace at [(i + 1, j + 1)] and leaves the
    stack empty; the loop goes on with the next character of the line, the
    rest of the text is scanned from that state, and the position is in the
    report's [extraClosing] list. *)
Theorem extra_closing_reported_stack_kept
  (lines : list string) (pre suf : list (Position * ascii)) (p : Position) :
  char_stream lines = pre ++ (p, "}"%char) :: suf ->
  stack (fold_left spec_step pre init) = [] ->
  (forall i j s rest,
      stack s = [] ->
      visit i j "}" s = mkState [] (out s ++ [ExtraClosing (i + 1) (j + 1)])
      /\ scan_line i j (String "}" rest) s
         = scan_line i (S j) rest
             (mkState [] (out s ++ [ExtraClosing (i + 1) (j + 1)])))
  /\ scan_lines 0 lines init
     = fold_left spec_step suf
         (mkState [] (out (fold_left spec_step pre init)
                      ++ [ExtraClosing (fst p) (snd p)]))
  /\ In p (extraClosing (check lines)).
Proof.
  intros Hsplit Hempty.
  assert (Hstep : spec_step (fold_left spec_step pre init) (p, "}"%char)
                  = mkState [] (out (fold_left spec_step pre init)
                                ++ [ExtraClosing (fst p) (snd p)])).
  { now apply spec_step_close_empty. }
  assert (Hscan : scan_lines 0 lines init
                  = fold_left spec_step suf
                      (mkState [] (out (fold_left spec_step pre init)
                                   ++ [ExtraClosing (fst p) (snd p)]))).
  { rewrite scan_fold, Hsplit, fold_left_app. cbn [fold_left]. now rewrite Hstep. }
  split; [|split; [exact Hscan|]].
  - intros i j s rest E. split; [now apply visit_close_empty|].
    simpl scan_line. now rewrite visit_close_empty.
  - rewrite check_eq. simpl extraClosing. rewrite Hscan.
    match goal with |- context [fold_left spec_step suf ?s0] =>
      destruct (fold_out suf s0) as (more & E & _) end.
    rewrite E. simpl out. apply in_extra_of.
    apply in_or_app. left. apply in_or_app. right. now left.
Qed.

Lemma extra_closing_reported_stack_kept_witness :
  scan_lines 0 ["}{"%string] init
  = fold_left spec_step [((1, 2), "{"%char)] (mkState [] [ExtraClosing 1 1])
  /\ In (1, 1) (extraClosing (check ["}{"%string])).
Proof.
  destruct (extra_closing_reported_stack_kept
              ["}{"%string] [] [((1, 2), "{"%char)] (1, 1) eq_refl eq_refl)
    as (_ & H2 & H3).
  split; [exact H2|exact H3].
Defined.

(** *** The depth of the stack *)

Lemma removelast_length {A : Type} (l : list A) :
  l <> [] -> S (List.length (removelast l)) = List.length l.
Proof.
  intros H. destruct (exists_last H) as (l' & a & ->).
  rewrite removelast_last, length_app. simpl. lia.
Qed.

Lemma pending_nil (n d : nat) : pending n d [] = n.
Proof.
  revert d. induction n as [|n IH]; intros d; simpl; [reflexivity|].
  now rewrite IH.
Qed.

Lemma pending_open (c : ascii) (w : list ascii) (n d : nat) :
  is_open c = true -> pending n d (c :: w) = pending n (S d) w.
Proof.
  intros Ho. revert d. induction n as [|n IH]; intros d; simpl; [reflexivity|].
  now rewrite Ho, IH.
Qed.

Lemma pending_close (c : ascii) (w : list ascii) (n d : nat) :
  is_open c = false -> is_close c = true ->
  pending n (S d) (c :: w) = pending n d w.
Proof.
  intros Ho Hc. revert d. induction n as [|n IH]; intros d; simpl; [reflexivity|].
  now rewrite Ho, Hc, IH.
Qed.

Lemma pending_other (c : ascii) (w : list ascii) (n d : nat) :
  is_open c = false -> is_close c = false ->
  pending n d (c :: w) = pending n d w.
Proof.
  intros Ho Hc. revert d. induction n as [|n IH]; intros d; simpl; [reflexivity|].
  now rewrite Ho, Hc, IH.
Qed.

(** Started with any stack, the scan ends with the entries no closing brace
    of the stream matched, old and new. *)
Lemma depth_fold (cs : list (Position * ascii)) :
  forall s,
    List.length (stack (fold_left spec_step cs s))
    = pending (List.length (stack s)) 0 (map snd cs) + unmatched_opens (map snd cs).
Proof.
  induction cs as [|[p c] cs IH]; intros s.
  - simpl. rewrite pending_nil. lia.
  - cbn [fold_left map snd unmatched_opens]. rewrite IH. unfold spec_step.
    fold (is_open c). fold (is_close c).
    destruct (is_open c) eqn:Ho.
    + simpl stack. rewrite length_app. simpl List.length.
      rewrite pending_open by exact Ho.
      rewrite Nat.add_1_r. simpl pending. simpl andb.
      destruct (closes 0 (map snd cs)); simpl; lia.
    + destruct (is_close c) eqn:Hc.
      * destruct (stack s) as [|q st] eqn:Es.
        -- simpl. reflexivity.
        -- cbn [stack]. pose proof (@removelast_length _ (q :: st)) as HL.
           assert (Hne : q :: st <> []) by discriminate.
           specialize (HL Hne). rewrite <- HL.
           cbn [pending closes]. rewrite Ho, Hc.
           rewrite pending_close by assumption. simpl. reflexivity.
      * rewrite pending_other by assumption. simpl. reflexivity.
Qed.

(** C3: after any prefix of the character stream (its first [n]
    characters), the stack holds as many entries as the prefix has opening
    braces that no closing brace of the prefix matches; the scan of the
    whole text is the scan of the rest of the stream from that state. *)
Theorem stack_depth_is_unmatched_opens (lines : list string) (n : nat) :
  List.length (stack (fold_left spec_step (firstn n (char_stream lines)) init))
  = unmatched_opens (map snd (firstn n (char_stream lines)))
  /\ scan_lines 0 lines init
     = fold_left spec_step (skipn n (char_stream lines))
         (fold_left spec_step (firstn n (char_stream lines)) init)
  /\ List.length (stack (scan_lines 0 lines init))
     = unmatched_opens (map snd (char_stream lines)).
Proof.
  split; [|split].
  - now rewrite depth_fold.
  - now rewrite <- fold_left_app, firstn_skipn, scan_fold.
  - now rewrite scan_fold, depth_fold.
Qed.

Example unmatched_opens_ex :
  unmatched_opens (list_ascii_of_string "}{ {x} { }{") = 2.
Proof. reflexivity. Qed.

(** *** The order of the stack *)

Lemma pos_lt_trans (p q r : Position) : pos_lt p q -> pos_lt q r -> pos_lt p r.
Proof. unfold pos_lt. lia. Qed.

Lemma removelast_split {A : Type} (l : list A) :
  l <> [] -> exists l' a, l = l' ++ [a] /\ removelast l = l'.
Proof.
  intros H. destruct (exists_last H) as (l' & a & ->).
  exists l', a. now rewrite removelast_last.
Qed.

Lemma sorted_snoc (st : list Position) (q : Position) :
  StronglySorted pos_lt st -> Forall (fun p => pos_lt p q) st ->
  StronglySorted pos_lt (st ++ [q]).
Proof.
  induction 1 as [|a st Hs IH Ha]; intros Hq; simpl.
  - constructor; constructor.
  - inversion Hq; subst. constructor; [now apply IH|].
    apply Forall_app. split; [exact Ha|]. now constructor.
Qed.

Lemma sorted_app_l (st : list Position) (l2 : list Position) :
  StronglySorted pos_lt (st ++ l2) -> StronglySorted pos_lt st.
Proof.
  induction st as [|a st IH]; simpl; intros H; [constructor|].
  inversion H; subst. constructor; [now apply IH|].
  match goal with F : Forall _ (st ++ l2) |- _ => apply Forall_app in F; tauto end.
Qed.

(** The stack is sorted and lies before the character about to be visited;
    one visit keeps that, for the next character of the line. *)
Lemma visit_sorted (i j : nat) (c : ascii) (s : State) :
  StronglySorted pos_lt (stack s) ->
  Forall (fun p => pos_lt p (i + 1, j + 1)) (stack s) ->
  StronglySorted pos_lt (stack (visit i j c s))
  /\ Forall (fun p => pos_lt p (i + 1, S j + 1)) (stack (visit i j c s)).
Proof.
  intros Hs Hb.
  assert (Hnext : pos_lt (i + 1, j + 1) (i + 1, S j + 1)) by (unfold pos_lt; simpl; lia).
  assert (Hb' : Forall (fun p => pos_lt p (i + 1, S j + 1)) (stack s)).
  { eapply Forall_impl; [|exact Hb]. intros p Hp. simpl in Hp.
    exact (pos_lt_trans _ _ _ Hp Hnext). }
  unfold visit. destruct (Ascii.eqb c "{").
  - simpl. split; [now apply sorted_snoc|].
    apply Forall_app. split; [exact Hb'|]. now constructor.
  - destruct (Ascii.eqb c "}"); [|now split].
    destruct (stack s) as [|q st] eqn:E; [simpl; now split|].
    cbn [stack]. destruct (@removelast_split _ (q :: st)) as (l' & a & E1 & E2);
      [discriminate|].
    rewrite E2. rewrite E1 in Hs, Hb'. split.
    + eapply sorted_app_l; eauto.
    + apply Forall_app in Hb'. tauto.
Qed.

Lemma scan_line_sorted (line : string) :
  forall i j s,
    StronglySorted pos_lt (stack s) ->
    Forall (fun p => pos_lt p (i + 1, j + 1)) (stack s) ->
    StronglySorted pos_lt (stack (scan_line i j line s))
    /\ Forall (fun p => fst p <= i + 1) (stack (scan_line i j line s)).
Proof.
  induction line as [|c rest IH]; intros i j s Hs Hb; simpl.
  - split; [exact Hs|]. eapply Forall_impl; [|exact Hb].
    intros p Hp. unfold pos_lt in Hp. simpl in Hp. lia.
  - destruct (visit_sorted i j c s Hs Hb) as [Hs' Hb']. now apply IH.
Qed.

Lemma scan_lines_sorted (lines : list string) :
  forall i s,
    StronglySorted pos_lt (stack s) ->
    Forall (fun p => fst p <= i) (stack s) ->
    StronglySorted pos_lt (stack (scan_lines i lines s)).
Proof.
  induction lines as [|line rest IH]; intros i s Hs Hb; simpl; [exact Hs|].
  assert (Hb0 : Forall (fun p => pos_lt p (i + 1, 0 + 1)) (stack s)).
  { eapply Forall_impl; [|exact Hb]. intros p Hp. cbv beta in Hp.
    unfold pos_lt. simpl. lia. }
  destruct (scan_line_sorted line i 0 s Hs Hb0) as [Hs' Hb'].
  apply IH; [exact Hs'|]. eapply Forall_impl; [|exact Hb'].
  intros p Hp. simpl in Hp. lia.
Qed.

(** Every entry of the stack is an old one or the position of an opening
    brace of the stream. *)
Lemma fold_stack_origin (cs : list (Position * ascii)) :
  forall s p,
    In p (stack (fold_left spec_step cs s)) ->
    In p (stack s) \/ In (p, "{"%char) cs.
Proof.
  induction cs as [|[q c] cs IH]; intros s p H; [now left|].
  cbn [fold_left] in H. apply IH in H. destruct H as [H|H]; [|right; now right].
  unfold spec_step in H. destruct (Ascii.eqb c "{") eqn:Ho.
  - apply Ascii.eqb_eq in Ho. subst c. simpl in H. apply in_app_or in H.
    destruct H as [H|[H|[]]]; [now left|]. subst q. right. now left.
  - destruct (Ascii.eqb c "}"); [|now left].
    destruct (stack s) as [|r st] eqn:E; [destruct H|].
    cbn [stack] in H. left.
    destruct (@removelast_split _ (r :: st)) as (l' & a & E1 & E2); [discriminate|].
    rewrite E2 in H. rewrite E1. apply in_or_app. now left.
Qed.

(** C4: the report's [unclosed] list is the stack the scan ends with, bottom
    first, that is in the order its entries were pushed; it is strictly
    ascending by line and then by column, and each entry is the position of
    an opening brace of the text. *)
Theorem unclosed_ascending (lines : list string) :
  unclosed (check lines) = stack (scan_lines 0 lines init)
  /\ StronglySorted pos_lt (unclosed (check lines))
  /\ Forall (fun p => In (p, "{"%char) (char_stream lines)) (unclosed (check lines)).
Proof.
  rewrite check_eq. simpl unclosed. split; [reflexivity|]. split.
  - apply scan_lines_sorted; constructor.
  - apply Forall_forall. intros p H. rewrite scan_fold in H.
    apply fold_stack_origin in H. destruct H as [[]|H]. exact H.
Qed.

Example unclosed_ex :
  unclosed (check ["{ {"; "} {"; "  { }"]%string) = [(1, 1); (2, 3)].
Proof. reflexivity. Qed.

(** *** Counting pushes and pops *)

Lemma stream_count_cons (c : ascii) (p : Position) (x : ascii)
  (cs : list (Position * ascii)) :
  stream_count c ((p, x) :: cs) = (if Ascii.eqb x c then 1 else 0) + stream_count c cs.
Proof. unfold stream_count. simpl. now destruct (Ascii.eqb x c). Qed.

Lemma stream_count_app (c : ascii) (cs1 cs2 : list (Position * ascii)) :
  stream_count c (cs1 ++ cs2) = stream_count c cs1 + stream_count c cs2.
Proof. unfold stream_count. now rewrite filter_app, length_app. Qed.

Lemma line_stream_count (c : ascii) (line : string) :
  forall i j, stream_count c (line_stream i j line) = occurrences c line.
Proof.
  induction line as [|x rest IH]; intros i j; [reflexivity|].
  rewrite line_stream_cons, stream_count_cons. simpl. now rewrite IH.
Qed.

Lemma lines_stream_count (c : ascii) (lines : list string) :
  forall i, stream_count c (lines_stream i lines) = total_occurrences c lines.
Proof.
  unfold total_occurrences.
  induction lines as [|line rest IH]; intros i; [reflexivity|].
  rewrite lines_stream_cons, stream_count_app, line_stream_count, IH. reflexivity.
Qed.

Lemma char_stream_count (c : ascii) (lines : list string) :
  stream_count c (char_stream lines) = total_occurrences c lines.
Proof. rewrite char_stream_lines_stream. apply lines_stream_count. Qed.

Lemma open_not_close (c : ascii) : Ascii.eqb c "{" = true -> Ascii.eqb c "}" = false.
Proof. intros H. apply Ascii.eqb_eq in H. now subst c. Qed.

(** The four ways one step can go. *)
Lemma spec_step_cases (s : State) (p : Position) (c : ascii) :
  (c = "{"%char /\ spec_step s (p, c) = mkState (stack s ++ [p]) (out s))
  \/ (c = "}"%char /\ stack s = []
      /\ spec_step s (p, c) = mkState [] (out s ++ [ExtraClosing (fst p) (snd p)]))
  \/ (c = "}"%char /\ stack s <> []
      /\ spec_step s (p, c) = mkState (removelast (stack s)) (out s))
  \/ (Ascii.eqb c "{" = false /\ Ascii.eqb c "}" = false /\ spec_step s (p, c) = s).
Proof.
  unfold spec_step. destruct (Ascii.eqb c "{") eqn:Ho.
  - apply Ascii.eqb_eq in Ho. now left.
  - destruct (Ascii.eqb c "}") eqn:Hc; [|now repeat right].
    apply Ascii.eqb_eq in Hc. destruct (stack s) eqn:E.
    + right. now left.
    + right. right. left. repeat split; [exact Hc|discriminate].
Qed.

(** Every opening brace is on the stack at the end or was popped by a
    closing brace; every closing brace popped an entry or was reported. *)
Lemma fold_counts (cs : list (Position * ascii)) :
  forall s,
    List.length (stack (fold_left spec_step cs s)) + matched_closes cs s
    = List.length (stack s) + stream_count "{" cs
    /\ List.length (flat_map extra_of (out (fold_left spec_step cs s)))
       + matched_closes cs s
       = List.length (flat_map extra_of (out s)) + stream_count "}" cs.
Proof.
  induction cs as [|[p c] cs IH]; intros s.
  - simpl. unfold stream_count. simpl. lia.
  - cbn [fold_left matched_closes snd]. rewrite !stream_count_cons.
    destruct (IH (spec_step s (p, c))) as [IH1 IH2].
    destruct (spec_step_cases s p c) as [(-> & E)|[(-> & Es & E)|[(-> & Es & E)|(Ho & Hc & E)]]];
      rewrite E in IH1, IH2 |- *; unfold is_close; cbn [stack out] in IH1, IH2.
    + rewrite length_app in IH1. simpl in IH1. simpl. lia.
    + rewrite flat_map_app, length_app in IH2. rewrite Es in *.
      simpl in IH1, IH2. simpl. lia.
    + pose proof (removelast_length (stack s) Es) as HL.
      set (r := removelast (stack s)) in *.
      assert (Hn : (List.length (stack s) =? 0) = false) by (apply Nat.eqb_neq; lia).
      rewrite Hn. cbv [Ascii.eqb Bool.eqb andb negb]. lia.
    + rewrite Ho, Hc. simpl. lia.
Qed.

Lemma visit_close_length (i j : nat) (s : State) :
  stack s <> [] ->
  S (List.length (stack (visit i j "}" s))) = List.length (stack s).
Proof.
  intros H. destruct (removelast_split _ H) as (l' & a & E1 & E2).
  rewrite (visit_close_pop i j s l' a E1), E1, length_app. simpl. lia.
Qed.

(** C5: the opening braces of the text are as many as the entries of the
    [unclosed] list plus the closing braces that were met with a non-empty
    stack; the closing braces are those plus the reported extra ones; and
    the visit of a closing brace with a non-empty stack takes exactly one
    entry off the stack. *)
Theorem opens_are_unclosed_plus_matched (lines : list string) :
  total_occurrences "{" lines
  = List.length (unclosed (check lines)) + matched_closes (char_stream lines) init
  /\ total_occurrences "}" lines
     = matched_closes (char_stream lines) init
       + List.length (extraClosing (check lines))
  /\ (forall i j s,
         stack s <> [] ->
         S (List.length (stack (visit i j "}" s))) = List.length (stack s)).
Proof.
  rewrite check_eq. cbn [unclosed extraClosing]. rewrite scan_fold.
  destruct (fold_counts (char_stream lines) init) as [H1 H2].
  rewrite !char_stream_count in *. simpl in H1, H2.
  split; [lia|]. split; [lia|]. apply visit_close_length.
Qed.

Lemma opens_are_unclosed_plus_matched_witness :
  total_occurrences "{" ["{ {"; "} }}"]%string
  = List.length (unclosed (check ["{ {"; "} }}"]%string))
    + matched_closes (char_stream ["{ {"; "} }}"]%string) init
  /\ S (List.length (stack (visit 1 0 "}" (mkState [(1, 1); (1, 3)] []))))
     = List.length (stack (mkState [(1, 1); (1, 3)] [])).
Proof.
  destruct (opens_are_unclosed_plus_matched ["{ {"; "} }}"]%string) as (H1 & _ & H3).
  split; [exact H1|].
  apply (H3 1 0 (mkState [(1, 1); (1, 3)] [])). discriminate.
Defined.

Example matched_closes_ex :
  matched_closes (char_stream ["{ {"; "} }}"]%string) init = 2.
Proof. reflexivity. Qed.

(** *** Well-nested text and the verdict *)

Lemma line_stream_chars (line : string) :
  forall i j, map snd (line_stream i j line) = list_ascii_of_string line.
Proof.
  induction line as [|c rest IH]; intros i j; [reflexivity|].
  rewrite line_stream_cons. simpl. now rewrite IH.
Qed.

Lemma lines_stream_chars (lines : list string) :
  forall i, map snd (lines_stream i lines) = chars lines.
Proof.
  unfold chars. induction lines as [|line rest IH]; intros i; [reflexivity|].
  rewrite lines_stream_cons, map_app, line_stream_chars, IH. reflexivity.
Qed.

Lemma char_stream_chars (lines : list string) :
  map snd (char_stream lines) = chars lines.
Proof. rewrite char_stream_lines_stream. apply lines_stream_chars. Qed.

Lemma state_eta (s : State) : mkState (stack s) (out s) = s.
Proof. now destruct s. Qed.

(** A well-nested stretch of text leaves the stack and the output alone. *)
Lemma well_nested_run (w : list ascii) :
  well_nested w ->
  forall cs s, map snd cs = w -> fold_left spec_step cs s = s.
Proof.
  induction 1 as [|c w Ho Hc Hw IH|u v Hu IHu Hv IHv]; intros cs s E.
  - apply map_eq_nil in E. now subst cs.
  - destruct cs as [|[p c'] cs]; [discriminate|]. simpl in E.
    inversion E; subst. cbn [fold_left].
    destruct (spec_step_cases s p c) as [(-> & _)|[(-> & _)|[(-> & _)|(_ & _ & ->)]]];
      try discriminate.
    now apply IH.
  - destruct cs as [|[p c] cs]; [discriminate|]. simpl in E.
    inversion E as [[Ec E']]. subst c.
    apply map_eq_app in E'. destruct E' as (cu & cv & -> & Eu & Ev).
    destruct cv as [|[q c] cv]; [discriminate|]. simpl in Ev.
    inversion Ev as [[Ec Ev']]. subst c.
    cbn [fold_left]. rewrite fold_left_app. cbn [fold_left].
    destruct (spec_step_cases s p "{") as [(_ & ->)|[(F & _)|[(F & _)|(F & _)]]];
      try discriminate.
    rewrite (IHu cu _ Eu).
    destruct (spec_step_cases (mkState (stack s ++ [p]) (out s)) q "}")
      as [(F & _)|[(_ & F & _)|[(_ & _ & ->)|(_ & F & _)]]]; try discriminate.
    + simpl in F. now destruct (stack s).
    + cbn [stack out]. rewrite removelast_last, state_eta. now apply IHv.
Qed.

Lemma closes_all_other (c : ascii) (d : nat) (w : list ascii) :
  is_open c = false -> is_close c = false ->
  closes_all d w -> closes_all d (c :: w).
Proof.
  intros Ho Hc H. destruct H as [w Hw|d u v Hu Hv].
  - constructor. now constructor.
  - change (c :: u ++ "}"%char :: v) with ((c :: u) ++ "}"%char :: v).
    constructor; [now constructor|exact Hv].
Qed.

Lemma closes_all_open (d : nat) (w : list ascii) :
  closes_all (S d) w -> closes_all d ("{"%char :: w).
Proof.
  intros H. inversion H as [|d' u v Hu Hv]; subst.
  destruct Hv as [v Hv|d v1 v2 Hv1 Hv2].
  - constructor. now constructor.
  - replace ("{"%char :: u ++ "}"%char :: v1 ++ "}"%char :: v2)
      with (("{"%char :: u ++ "}"%char :: v1) ++ "}"%char :: v2)
      by (simpl; now rewrite <- app_assoc).
    constructor; [now constructor|exact Hv2].
Qed.

(** A stretch of text that empties the stack without printing closes the
    entries of the stack and is well nested apart from that. *)
Lemma run_closes_all (cs : list (Position * ascii)) :
  forall s,
    stack (fold_left spec_step cs s) = [] ->
    out (fold_left spec_step cs s) = out s ->
    closes_all (List.length (stack s)) (map snd cs).
Proof.
  induction cs as [|[p c] cs IH]; intros s Hst Hout.
  - simpl in Hst. rewrite Hst. constructor. constructor.
  - cbn [fold_left] in Hst, Hout. cbn [map snd].
    specialize (IH (spec_step s (p, c)) Hst).
    destruct (spec_step_cases s p c) as [(-> & E)|[(-> & Es & E)|[(-> & Es & E)|(Ho & Hc & E)]]];
      rewrite E in IH, Hout; cbn [stack out] in IH.
    + apply closes_all_open. rewrite length_app, Nat.add_1_r in IH. now apply IH.
    + exfalso.
      match type of Hout with out (fold_left spec_step cs ?s0) = _ =>
        destruct (fold_out cs s0) as (more & Em & _) end.
      rewrite Em in Hout. cbn [out] in Hout.
      apply (f_equal (@List.length _)) in Hout.
      rewrite !length_app in Hout. simpl in Hout. lia.
    + rewrite <- (removelast_length (stack s) Es).
      change ("}"%char :: map snd cs) with ([] ++ "}"%char :: map snd cs).
      constructor; [constructor|now apply IH].
    + apply closes_all_other; [exact Ho|exact Hc|now apply IH].
Qed.

Lemma main_balanced_iff (lines : list string) :
  main lines = [Balanced] <-> scan_lines 0 lines init = init.
Proof.
  unfold main, final. split.
  - intros H. pose proof (scan_out_extra lines) as Hx.
    destruct (scan_lines 0 lines init) as [st o]. cbn [stack out] in *.
    destruct st as [|q st].
    + destruct o as [|m o]; [reflexivity|].
      destruct o; discriminate.
    + destruct o as [|m o]; [discriminate|].
      simpl in Hx. destruct m; try discriminate.
  - intros ->. reflexivity.
Qed.

(** X1: the script prints "Braces are balanced." and nothing else exactly
    when the braces of the text are well nested; the report is then the one
    without defects, and it is that report for no other text. *)
Theorem no_defect_iff_well_nested (lines : list string) :
  (main lines = [Balanced] <-> well_nested (chars lines))
  /\ (check lines = mkReport true [] [] <-> well_nested (chars lines)).
Proof.
  assert (Hscan : scan_lines 0 lines init = init <-> well_nested (chars lines)).
  { rewrite scan_fold, <- char_stream_chars. split.
    - intros H.
      assert (C : closes_all (List.length (stack init)) (map snd (char_stream lines))).
      { apply run_closes_all; now rewrite H. }
      now inversion C.
    - intros H. now apply (well_nested_run _ H). }
  split; [now rewrite main_balanced_iff|].
  rewrite <- Hscan, check_eq. split.
  - intros H. pose proof (scan_out_extra lines) as Hx.
    destruct (scan_lines 0 lines init) as [st o]. cbn [stack out] in *.
    inversion H as [[Hb He Hu]]. subst st. destruct o as [|m o]; [reflexivity|].
    simpl in Hx. destruct m; discriminate.
  - intros ->. reflexivity.
Qed.


Lemma scan_lines_app (l1 l2 : list string) :
  forall i s,
    scan_lines i (l1 ++ l2) s = scan_lines (i + List.length l1) l2 (scan_lines i l1 s).
Proof.
  induction l1 as [|line l1 IH]; intros i s; simpl.
  - now rewrite Nat.add_0_r.
  - rewrite IH. f_equal. lia.
Qed.

(** X2: lines added at the end of the text whose braces are well nested
    change neither the output nor the report. *)
Theorem well_nested_lines_appended (lines more : list string) :
  well_nested (chars more) ->
  main (lines ++ more) = main lines /\ check (lines ++ more) = check lines.
Proof.
  intros H.
  assert (E : scan_lines 0 (lines ++ more) init = scan_lines 0 lines init).
  { rewrite scan_lines_app, scan_lines_fold.
    apply (well_nested_run _ H). apply lines_stream_chars. }
  unfold check, main. now rewrite E.
Qed.

Lemma well_nested_lines_appended_witness :
  check (["}{"%string] ++ ["x {"%string; "} y"%string]) = check ["}{"%string].
Proof.
  apply (well_nested_lines_appended ["}{"%string] ["x {"; "} y"]%string).
  change (well_nested ("x" :: " " :: "{" :: [] ++ "}" :: [" "; "y"])%char).
  repeat (first [apply wn_nil | apply wn_pair | apply wn_other; [reflexivity|reflexivity|]]).
Defined.


(** *** The stream is in reading order *)

Lemma sorted_app {A : Type} (R : A -> A -> Prop) (l1 l2 : list A) :
  StronglySorted R l1 -> StronglySorted R l2 ->
  (forall x y, In x l1 -> In y l2 -> R x y) ->
  StronglySorted R (l1 ++ l2).
Proof.
  induction 1 as [|a l1 Hs IH Ha]; intros H2 H12; simpl; [exact H2|].
  constructor.
  - apply IH; [exact H2|]. intros x y Hx Hy. apply H12; [now right|exact Hy].
  - apply Forall_app. split; [exact Ha|].
    apply Forall_forall. intros y Hy. apply H12; [now left|exact Hy].
Qed.

Lemma line_stream_bounds (line : string) :
  forall i j,
    Forall (fun x => fst (fst x) = i + 1 /\ j + 1 <= snd (fst x)) (line_stream i j line).
Proof.
  induction line as [|c rest IH]; intros i j; [constructor|].
  rewrite line_stream_cons. constructor; [simpl; lia|].
  eapply Forall_impl; [|apply (IH i (S j))]. intros [[l k] ch] Hx. simpl in *. lia.
Qed.

Lemma line_stream_sorted (line : string) :
  forall i j, StronglySorted before (line_stream i j line).
Proof.
  induction line as [|c rest IH]; intros i j; [constructor|].
  rewrite line_stream_cons. constructor; [apply IH|].
  eapply Forall_impl; [|apply (line_stream_bounds rest i (S j))].
  intros [[l k] ch] Hx. unfold before, pos_lt. simpl in *. lia.
Qed.

Lemma lines_stream_bounds (lines : list string) :
  forall i, Forall (fun x => i + 1 <= fst (fst x)) (lines_stream i lines).
Proof.
  induction lines as [|line rest IH]; intros i; [constructor|].
  rewrite lines_stream_cons. apply Forall_app. split.
  - eapply Forall_impl; [|apply (line_stream_bounds line i 0)].
    intros [[l k] ch] Hx. simpl in *. lia.
  - eapply Forall_impl; [|apply (IH (S i))]. intros [[l k] ch] Hx. simpl in *. lia.
Qed.

Lemma lines_stream_sorted (lines : list string) :
  forall i, StronglySorted before (lines_stream i lines).
Proof.
  induction lines as [|line rest IH]; intros i; [constructor|].
  rewrite lines_stream_cons. apply sorted_app; [apply line_stream_sorted|apply IH|].
  intros x y Hx Hy.
  pose proof (line_stream_bounds line i 0) as B1.
  pose proof (lines_stream_bounds rest (S i)) as B2.
  rewrite Forall_forall in B1, B2. specialize (B1 x Hx). specialize (B2 y Hy).
  destruct x as [[l k] ch], y as [[l' k'] ch']. unfold before, pos_lt. simpl in *. lia.
Qed.

Lemma char_stream_sorted (lines : list string) :
  StronglySorted before (char_stream lines).
Proof. rewrite char_stream_lines_stream. apply lines_stream_sorted. Qed.

Lemma pos_lt_irrefl (p : Position) : ~ pos_lt p p.
Proof. unfold pos_lt. lia. Qed.

Lemma sorted_middle (pre suf : list (Position * ascii)) (x : Position * ascii) :
  StronglySorted before (pre ++ x :: suf) ->
  Forall (fun y => before y x) pre /\ Forall (before x) suf.
Proof.
  induction pre as [|z pre IH]; simpl; intros H; inversion H; subst.
  - split; [constructor|assumption].
  - destruct (IH H2) as [I1 I2]. split; [|exact I2].
    constructor; [|exact I1].
    match goal with F : Forall _ (pre ++ x :: suf) |- _ =>
      rewrite Forall_forall in F; apply F end.
    apply in_or_app. right. now left.
Qed.

Lemma sorted_head_before (x y : Position * ascii) (a b : list (Position * ascii)) :
  StronglySorted before (x :: a ++ y :: b) -> fst x = fst y -> False.
Proof.
  intros Hs Hxy. inversion Hs as [|? ? _ F]; subst.
  rewrite Forall_forall in F.
  assert (Hb : before x y) by (apply F, in_or_app; right; now left).
  unfold before in Hb. rewrite Hxy in Hb. now apply pos_lt_irrefl in Hb.
Qed.

(** A position occurs once in a stream in reading order. *)
Lemma sorted_split_unique (pre suf a b : list (Position * ascii))
  (x y : Position * ascii) :
  StronglySorted before (pre ++ x :: suf) ->
  pre ++ x :: suf = a ++ y :: b -> fst x = fst y ->
  a = pre /\ y = x /\ b = suf.
Proof.
  revert a. induction pre as [|z pre IH]; intros a Hs E Hxy.
  - destruct a as [|z a]; simpl in E; inversion E; subst; [now repeat split|].
    exfalso. exact (sorted_head_before _ _ _ _ Hs Hxy).
  - destruct a as [|w a]; simpl in E; inversion E; subst.
    + exfalso. exact (sorted_head_before _ _ _ _ Hs (eq_sym Hxy)).
    + inversion Hs; subst.
      destruct (IH a ltac:(assumption) ltac:(assumption) Hxy) as (-> & -> & ->).
      now repeat split.
Qed.

(** *** The extra closing braces *)

Lemma in_removelast {A : Type} (l : list A) (x : A) :
  In x (removelast l) -> In x l.
Proof.
  destruct l as [|a l]; [now simpl|]. intros H.
  destruct (@removelast_split _ (a :: l)) as (l' & b & E1 & E2); [discriminate|].
  rewrite E2 in H. rewrite E1. apply in_or_app. now left.
Qed.

Lemma extras_snoc (msgs : list Msg) (q : Position) :
  flat_map extra_of (msgs ++ [ExtraClosing (fst q) (snd q)])
  = flat_map extra_of msgs ++ [q].
Proof. rewrite flat_map_app. simpl. now destruct q. Qed.

(** The extra closing braces printed so far are in reading order, before
    the characters still to come and before the entries of the stack. *)
Lemma fold_extras_inv (cs : list (Position * ascii)) :
  forall s,
    StronglySorted before cs ->
    StronglySorted pos_lt (flat_map extra_of (out s)) ->
    (forall e x, In e (flat_map extra_of (out s)) -> In x cs -> pos_lt e (fst x)) ->
    (forall e p, In e (flat_map extra_of (out s)) -> In p (stack s) -> pos_lt e p) ->
    StronglySorted pos_lt (flat_map extra_of (out (fold_left spec_step cs s)))
    /\ (forall e p,
           In e (flat_map extra_of (out (fold_left spec_step cs s))) ->
           In p (stack (fold_left spec_step cs s)) -> pos_lt e p).
Proof.
  induction cs as [|[q c] cs IH]; intros s Hs Ha Hb Hc; [now split|].
  inversion Hs as [|? ? Hs' Hq]; subst. rewrite Forall_forall in Hq.
  cbn [fold_left].
  assert (Hbq : forall e, In e (flat_map extra_of (out s)) -> pos_lt e q).
  { intros e He. apply (Hb e (q, c) He). now left. }
  assert (Hb' : forall e x, In e (flat_map extra_of (out s)) -> In x cs ->
                            pos_lt e (fst x)).
  { intros e x He Hx. apply (Hb e x He). now right. }
  destruct (spec_step_cases s q c)
    as [(-> & E)|[(-> & Es & E)|[(-> & Es & E)|(Ho & Hcl & E)]]];
    rewrite E; apply IH; cbn [stack out]; try assumption.
  - intros e p He Hp. apply in_app_or in Hp. destruct Hp as [Hp|[<-|[]]].
    + now apply Hc.
    + now apply Hbq.
  - rewrite extras_snoc. apply sorted_snoc; [exact Ha|].
    apply Forall_forall. exact Hbq.
  - intros e x He Hx. rewrite extras_snoc in He. apply in_app_or in He.
    destruct He as [He|[<-|[]]]; [now apply Hb'|]. exact (Hq x Hx).
  - intros e p _ [].
  - intros e p He Hp. apply in_removelast in Hp. now apply Hc.
Qed.

(** Where a printed extra closing brace comes from. *)
Lemma fold_extra_origin (cs : list (Position * ascii)) :
  forall s e,
    In e (flat_map extra_of (out (fold_left spec_step cs s))) ->
    In e (flat_map extra_of (out s))
    \/ exists a b, cs = a ++ (e, "}"%char) :: b /\ stack (fold_left spec_step a s) = [].
Proof.
  induction cs as [|[q c] cs IH]; intros s e H; [now left|].
  cbn [fold_left] in H. apply IH in H. destruct H as [H|(a & b & -> & Hst)].
  - destruct (spec_step_cases s q c)
      as [(-> & E)|[(-> & Es & E)|[(-> & Es & E)|(Ho & Hcl & E)]]];
      rewrite E in H; cbn [out] in H; try (now left).
    rewrite extras_snoc in H. apply in_app_or in H.
    destruct H as [H|[<-|[]]]; [now left|].
    right. exists [], cs. now split.
  - right. exists ((q, c) :: a), b. now split.
Qed.

(** X3: the extra closing braces of the report are in strictly ascending
    order, each is the position of a closing brace of the text, and each
    comes before every unclosed opening brace of the report. *)
Theorem extra_closing_ascending_before_unclosed (lines : list string) :
  StronglySorted pos_lt (extraClosing (check lines))
  /\ Forall (fun e => In (e, "}"%char) (char_stream lines)) (extraClosing (check lines))
  /\ (forall e p,
         In e (extraClosing (check lines)) -> In p (unclosed (check lines)) ->
         pos_lt e p).
Proof.
  rewrite check_eq. cbn [extraClosing unclosed]. rewrite scan_fold.
  destruct (fold_extras_inv (char_stream lines) init (char_stream_sorted lines))
    as [H1 H2]; try (now intros e x []); [constructor|].
  split; [exact H1|]. split; [|exact H2].
  apply Forall_forall. intros e He. apply fold_extra_origin in He.
  destruct He as [[]|(a & b & -> & _)]. apply in_or_app. right. now left.
Qed.

Lemma extra_closing_ascending_before_unclosed_witness :
  pos_lt (1, 3) (2, 1).
Proof.
  destruct (extra_closing_ascending_before_unclosed ["{}}"; "{"]%string) as (_ & _ & H).
  apply H; vm_compute; now left.
Defined.


(** *** Which braces are reported *)

Lemma extra_emitted (pre suf : list (Position * ascii)) (p : Position) (s : State) :
  stack (fold_left spec_step pre s) = [] ->
  In p (flat_map extra_of
          (out (fold_left spec_step (pre ++ (p, "}"%char) :: suf) s))).
Proof.
  intros H. rewrite fold_left_app. cbn [fold_left].
  rewrite (spec_step_close_empty _ p H).
  match goal with |- context [fold_left spec_step suf ?s0] =>
    destruct (fold_out suf s0) as (more & E & _) end.
  rewrite E. cbn [out]. apply in_extra_of.
  apply in_or_app. left. apply in_or_app. right. now left.
Qed.

Lemma depth_from_init (pre : list (Position * ascii)) :
  List.length (stack (fold_left spec_step pre init)) = unmatched_opens (map snd pre).
Proof. now rewrite depth_fold. Qed.

(** X4: a character of the text is reported as an extra closing brace
    exactly when it is a closing brace and every opening brace before it
    is matched by a closing brace before it. *)
Theorem extra_closing_iff (lines : list string)
  (pre suf : list (Position * ascii)) (p : Position) (c : ascii) :
  char_stream lines = pre ++ (p, c) :: suf ->
  (In p (extraClosing (check lines))
   <-> c = "}"%char /\ unmatched_opens (map snd pre) = 0).
Proof.
  intros Hsplit. rewrite check_eq. cbn [extraClosing]. rewrite scan_fold. split.
  - intros H. apply fold_extra_origin in H. destruct H as [[]|(a & b & E & Hst)].
    pose proof (char_stream_sorted lines) as Hs. rewrite Hsplit in Hs, E.
    destruct (sorted_split_unique pre suf a b (p, c) (p, "}"%char) Hs E eq_refl)
      as (-> & Ey & _).
    inversion Ey; subst. split; [reflexivity|].
    now rewrite <- depth_from_init, Hst.
  - intros [-> H0]. rewrite Hsplit. apply extra_emitted.
    apply length_zero_iff_nil. now rewrite depth_from_init.
Qed.

Lemma extra_closing_iff_witness :
  In (1, 4) (extraClosing (check ["{}x}{"%string])).
Proof.
  apply (extra_closing_iff ["{}x}{"%string]
           [((1, 1), "{"%char); ((1, 2), "}"%char); ((1, 3), "x"%char)]
           [((1, 5), "{"%char)] (1, 4) "}"%char eq_refl).
  split; reflexivity.
Defined.

Lemma list_rev_last {A : Type} (l : list A) :
  l = [] \/ exists l' a, l = l' ++ [a].
Proof.
  destruct l as [|x l]; [now left|]. right.
  destruct (@exists_last _ (x :: l)) as (l' & a & E); [discriminate|]. eauto.
Qed.

(** An entry of the stack stays as long as its closing brace does not come. *)
Lemma entry_survives (cs : list (Position * ascii)) :
  forall s st q above,
    stack s = st ++ q :: above ->
    closes (List.length above) (map snd cs) = false ->
    In q (stack (fold_left spec_step cs s)).
Proof.
  induction cs as [|[r c] cs IH]; intros s st q above Est Hcl.
  - simpl. rewrite Est. apply in_or_app. right. now left.
  - cbn [fold_left]. cbn [map snd closes] in Hcl.
    destruct (spec_step_cases s r c)
      as [(-> & E)|[(-> & Es & E)|[(-> & Es & E)|(Ho & Hc & E)]]]; rewrite E.
    + apply (IH _ st q (above ++ [r])).
      * cbn [stack]. rewrite Est, <- app_assoc. reflexivity.
      * rewrite length_app, Nat.add_1_r. exact Hcl.
    + rewrite Est in Es. now destruct st.
    + destruct (list_rev_last above) as [->|(above' & a & ->)].
      * simpl in Hcl. discriminate.
      * apply (IH _ st q above').
        -- cbn [stack]. rewrite Est.
           change (st ++ q :: above' ++ [a]) with (st ++ (q :: above') ++ [a]).
           now rewrite app_assoc, removelast_last.
        -- rewrite length_app, Nat.add_1_r in Hcl. exact Hcl.
    + unfold is_open, is_close in Hcl. rewrite Ho, Hc in Hcl.
      now apply (IH _ st q above).
Qed.


Lemma in_firstn {A : Type} (k : nat) (l : list A) (x : A) :
  In x (firstn k l) -> In x l.
Proof.
  intros H. rewrite <- (firstn_skipn k l). apply in_or_app. now left.
Qed.

Lemma firstn_snoc_cases {A : Type} (k : nat) (l : list A) (a : A) :
  firstn k (l ++ [a]) = firstn k l
  \/ firstn k (l ++ [a]) = firstn (List.length l) l ++ [a].
Proof.
  destruct (Nat.le_gt_cases k (List.length l)) as [H|H].
  - left. rewrite firstn_app. replace (k - List.length l) with 0 by lia.
    simpl. now rewrite app_nil_r.
  - right. rewrite firstn_all, firstn_all2; [reflexivity|].
    rewrite length_app. simpl. lia.
Qed.

(** The scan keeps a bottom part of the stack it starts with and puts
    opening braces of the stream on top of it. *)
Lemma prefix_keep (cs : list (Position * ascii)) :
  forall s, exists k new,
    stack (fold_left spec_step cs s) = firstn k (stack s) ++ new
    /\ Forall (fun r => In (r, "{"%char) cs) new.
Proof.
  induction cs as [|[r c] cs IH]; intros s.
  - exists (List.length (stack s)), []. simpl.
    now rewrite firstn_all, app_nil_r.
  - cbn [fold_left]. destruct (IH (spec_step s (r, c))) as (k & new & E & F).
    assert (F' : Forall (fun r0 => In (r0, "{"%char) ((r, c) :: cs)) new).
    { eapply Forall_impl; [|exact F]. intros x Hx. now right. }
    destruct (spec_step_cases s r c)
      as [(-> & E1)|[(-> & Es & E1)|[(-> & Es & E1)|(Ho & Hc & E1)]]];
      rewrite E1 in E |- *; cbn [stack] in E.
    + destruct (firstn_snoc_cases k (stack s) r) as [Ek|Ek]; rewrite Ek in E.
      * now exists k, new.
      * exists (List.length (stack s)), (r :: new). split.
        -- rewrite E, <- app_assoc. reflexivity.
        -- constructor; [now left|exact F'].
    + exists 0, new. split; [|exact F']. rewrite E. now destruct k.
    + destruct (removelast_split _ Es) as (l' & a & E2 & E3).
      rewrite E3 in E |- *. rewrite E2.
      exists (Nat.min k (List.length l')), new. split; [|exact F'].
      rewrite E, firstn_app.
      replace (Nat.min k (List.length l') - List.length l') with 0 by lia.
      simpl. rewrite app_nil_r. f_equal.
      rewrite <- (firstn_all l') at 1. rewrite firstn_firstn. reflexivity.
    + now exists k, new.
Qed.

(** Once its closing brace has come, an entry is gone for good. *)
Lemma entry_closed (cs : list (Position * ascii)) :
  forall s st q above,
    stack s = st ++ q :: above ->
    closes (List.length above) (map snd cs) = true ->
    exists k new,
      stack (fold_left spec_step cs s) = firstn k st ++ new
      /\ Forall (fun r => In (r, "{"%char) cs) new.
Proof.
  induction cs as [|[r c] cs IH]; intros s st q above Est Hcl; [discriminate|].
  cbn [fold_left]. cbn [map snd closes] in Hcl.
  assert (W : forall (k : nat) (new : list Position),
             Forall (fun r0 => In (r0, "{"%char) cs) new ->
             Forall (fun r0 => In (r0, "{"%char) ((r, c) :: cs)) new).
  { intros k new F. eapply Forall_impl; [|exact F]. intros x Hx. now right. }
  destruct (spec_step_cases s r c)
    as [(-> & E)|[(-> & Es & E)|[(-> & Es & E)|(Ho & Hc & E)]]]; rewrite E.
  - destruct (IH (mkState (stack s ++ [r]) (out s)) st q (above ++ [r]))
      as (k & new & E1 & F).
    + cbn [stack]. rewrite Est, <- app_assoc. reflexivity.
    + rewrite length_app, Nat.add_1_r. exact Hcl.
    + exists k, new. split; [exact E1|now apply (W k)].
  - rewrite Est in Es. now destruct st.
  - destruct (list_rev_last above) as [->|(above' & a & ->)].
    + assert (Er : removelast (stack s) = st).
      { rewrite Est. apply removelast_last. }
      rewrite Er.
      destruct (prefix_keep cs (mkState st (out s))) as (k & new & E1 & F).
      exists k, new. split; [exact E1|now apply (W k)].
    + assert (Er : removelast (stack s) = st ++ q :: above').
      { rewrite Est.
        change (st ++ q :: above' ++ [a]) with (st ++ (q :: above') ++ [a]).
        now rewrite app_assoc, removelast_last. }
      rewrite Er.
      destruct (IH (mkState (st ++ q :: above') (out s)) st q above')
        as (k & new & E1 & F).
      * reflexivity.
      * rewrite length_app, Nat.add_1_r in Hcl. exact Hcl.
      * exists k, new. split; [exact E1|now apply (W k)].
  - unfold is_open, is_close in Hcl. rewrite Ho, Hc in Hcl.
    destruct (IH s st q above Est Hcl) as (k & new & E1 & F).
    exists k, new. split; [exact E1|now apply (W k)].
Qed.

(** X5: a character of the text is reported as an unclosed brace exactly
    when it is an opening brace and no closing brace after it matches it. *)
Theorem unclosed_iff (lines : list string)
  (pre suf : list (Position * ascii)) (p : Position) (c : ascii) :
  char_stream lines = pre ++ (p, c) :: suf ->
  (In p (unclosed (check lines))
   <-> c = "{"%char /\ closes 0 (map snd suf) = false).
Proof.
  intros Hsplit. rewrite check_eq. cbn [unclosed]. rewrite scan_fold.
  pose proof (char_stream_sorted lines) as Hs. rewrite Hsplit in Hs |- *.
  destruct (sorted_middle pre suf (p, c) Hs) as [Hpre Hsuf].
  rewrite Forall_forall in Hpre, Hsuf.
  rewrite fold_left_app. cbn [fold_left].
  set (s0 := fold_left spec_step pre init).
  split.
  - intros H.
    assert (Hc : c = "{"%char).
    { assert (Hin : In p (stack (fold_left spec_step (pre ++ (p, c) :: suf) init))).
      { rewrite fold_left_app. exact H. }
      apply fold_stack_origin in Hin. destruct Hin as [[]|Hin].
      apply in_split in Hin. destruct Hin as (a & b & E).
      destruct (sorted_split_unique pre suf a b (p, c) (p, "{"%char) Hs E eq_refl)
        as (_ & Ey & _).
      now inversion Ey. }
    subst c. split; [reflexivity|].
    destruct (closes 0 (map snd suf)) eqn:Hcl; [exfalso|reflexivity].
    destruct (spec_step_cases s0 p "{")
      as [(_ & E)|[(F & _)|[(F & _)|(F & _)]]]; try discriminate.
    rewrite E in H.
    destruct (entry_closed suf (mkState (stack s0 ++ [p]) (out s0)) (stack s0) p []
                eq_refl Hcl) as (k & new & E1 & Fn).
    rewrite E1 in H. apply in_app_or in H. destruct H as [H|H].
    + apply in_firstn in H. unfold s0 in H. apply fold_stack_origin in H.
      destruct H as [[]|H]. apply Hpre in H. now apply pos_lt_irrefl in H.
    + rewrite Forall_forall in Fn. apply Fn, Hsuf in H.
      now apply pos_lt_irrefl in H.
  - intros [-> Hcl].
    destruct (spec_step_cases s0 p "{")
      as [(_ & E)|[(F & _)|[(F & _)|(F & _)]]]; try discriminate.
    rewrite E. now apply (entry_survives suf _ (stack s0) p []).
Qed.

Lemma unclosed_iff_witness :
  In (1, 1) (unclosed (check ["{{}x"%string])).
Proof.
  apply (unclosed_iff ["{{}x"%string] []
           [((1, 2), "{"%char); ((1, 3), "}"%char); ((1, 4), "x"%char)]
           (1, 1) "{"%char eq_refl).
  split; reflexivity.
Defined.


(** *** The output and the report *)

Lemma extras_render (msgs : list Msg) :
  forallb is_extra msgs = true ->
  map (fun p => ExtraClosing (fst p) (snd p)) (flat_map extra_of msgs) = msgs.
Proof.
  induction msgs as [|m msgs IH]; simpl; [reflexivity|].
  intros H. apply andb_prop in H. destruct H as [Hm H].
  destruct m; try discriminate. simpl. now rewrite IH.
Qed.

(** X6: the output is determined by the report: it is the extra closing
    braces in the order of the report, followed by "Braces are balanced."
    when no brace is unclosed, and otherwise by the number of unclosed
    braces and then exactly that many positions, in the order of the
    report. *)
Theorem output_from_report (lines : list string) :
  main lines = render (check lines).
Proof.
  rewrite check_eq. unfold render, main, final. cbn [extraClosing unclosed].
  rewrite (extras_render _ (scan_out_extra lines)).
  now destruct (stack (scan_lines 0 lines init)).
Qed.


(** *** Running the script again *)

Lemma final_split (s : State) :
  final s = out s ++ final {| stack := stack s; out := [] |}.
Proof. unfold final. cbn [stack out]. now destruct (stack s). Qed.

Lemma exec_tail_eq (g : Namespace) :
  snd (exec_tail g)
  = final (scan_lines 0 (ns_lines g) {| stack := ns_stack g; out := [] |}).
Proof. unfold exec_tail, exec_loops, exec_verdict. cbn. now rewrite <- final_split. Qed.

Lemma exec_script_eq (file : list string) (g : Namespace) :
  exec_script file g
  = ({| ns_lines := file; ns_stack := stack (scan_lines 0 file init) |}, main file).
Proof.
  unfold exec_script, bind_lines, bind_stack, exec_loops, exec_verdict, main.
  cbn. fold init. now rewrite <- final_split.
Qed.

(** C7: whatever an earlier execution left bound to [lines] and [stack],
    the script prints the same output for the same file, because it binds
    both before it reads them: two executions started in any two
    namespaces print the same, and so does a second execution started in
    the namespace the first one left, where [stack] still holds the
    unclosed braces; the two reports are identical. *)
Theorem same_file_same_report (file : list string) (g g' : Namespace) :
  snd (exec_script file g) = main file
  /\ snd (exec_script file g') = snd (exec_script file g)
  /\ ns_stack (fst (exec_script file g)) = unclosed (check file)
  /\ snd (exec_script file (fst (exec_script file g))) = snd (exec_script file g)
  /\ report_of (snd (exec_script file (fst (exec_script file g))))
     = report_of (snd (exec_script file g)).
Proof.
  rewrite !exec_script_eq. cbn [fst snd ns_stack]. rewrite check_eq.
  repeat split; reflexivity.
Qed.

(** It is the assignment of line 9 that makes it so: the loops and the
    verdict alone, started with the stack a first execution on [["{"]]
    leaves, print something else than they do from the empty stack. *)
Example leftover_stack_shows :
  fst (exec_script ["{"%string] (mkNamespace [] [])) = mkNamespace ["{"%string] [(1, 1)]
  /\ snd (exec_tail (mkNamespace ["{"%string] [(1, 1)]))
     = [UnclosedCount 2; UnclosedAt 1 1; UnclosedAt 1 1]
  /\ snd (exec_script ["{"%string] (mkNamespace ["{"%string] [(1, 1)]))
     = [UnclosedCount 1; UnclosedAt 1 1].
Proof. repeat split; reflexivity. Qed.

(** *** The scenarios of the specification *)

Example main_pair : main ["{}"%string] = [Balanced].
Proof. reflexivity. Qed.

Example check_two_lines : check ["{"; "}"]%string = mkReport true [] [].
Proof. reflexivity. Qed.

Example check_open : check ["{"%string] = mkReport false [] [(1, 1)].
Proof. reflexivity. Qed.

Example check_nested : check ["{ { } "%string] = mkReport false [] [(1, 1)].
Proof. reflexivity. Qed.

Example char_stream_ex :
  char_stream ["{a"; "}"]%string
  = [((1, 1), "{"%char); ((1, 2), "a"%char); ((2, 1), "}"%char)].
Proof. reflexivity. Qed.

End CheckBracesFacts.

(** ** Facts about the string operations *)

Module PyStrFacts.

Import PyStr.
Local Open Scope string_scope.

Lemma prefix_app (sub suf : string) : prefix sub (sub ++ suf) = true.
Proof.
  induction sub as [|a sub IH]; simpl.
  - now destruct suf.
  - destruct (ascii_dec a a) as [_|N]; [exact IH|now destruct N].
Qed.

Lemma prefix_split (sub s : string) :
  prefix sub s = true -> exists suf, s = sub ++ suf.
Proof.
  revert s. induction sub as [|a sub IH]; intros s H.
  - now exists s.
  - destruct s as [|b s]; [discriminate|]. simpl in H.
    destruct (ascii_dec a b) as [->|_]; [|discriminate].
    destruct (IH s H) as (suf & ->). now exists suf.
Qed.

Lemma contains_eq (sub s : string) :
  contains sub s
  = if prefix sub s then true
    else match s with
         | EmptyString => false
         | String _ s' => contains sub s'
         end.
Proof. now destruct s. Qed.

(** [in] decides occurrence. *)
Lemma contains_iff (sub s : string) : contains sub s = true <-> Substring sub s.
Proof.
  split.
  - induction s as [|b s IH]; rewrite contains_eq; intros H.
    + destruct (prefix sub "") eqn:P; [|discriminate].
      destruct (prefix_split _ _ P) as (suf & E). now exists "", suf.
    + destruct (prefix sub (String b s)) eqn:P.
      * destruct (prefix_split _ _ P) as (suf & E). now exists "", suf.
      * destruct (IH H) as (pre & suf & E). exists (String b pre), suf.
        simpl. now rewrite E.
  - intros (pre & suf & ->). induction pre as [|b pre IH].
    + rewrite contains_eq. simpl append. now rewrite prefix_app.
    + change (String b pre ++ sub ++ suf) with (String b (pre ++ sub ++ suf)).
      rewrite contains_eq. cbv beta iota. rewrite IH.
      now destruct (prefix sub (String b (pre ++ sub ++ suf))).
Qed.

(** *** Appending and prefixes *)

Lemma app_nil_r (s : string) : s ++ "" = s.
Proof. induction s as [|a s IH]; simpl; [reflexivity|now rewrite IH]. Qed.

Lemma app_assoc (s1 s2 s3 : string) : s1 ++ s2 ++ s3 = (s1 ++ s2) ++ s3.
Proof. induction s1 as [|a s1 IH]; simpl; [reflexivity|now rewrite IH]. Qed.

Lemma length_app (s1 s2 : string) :
  String.length (s1 ++ s2) = (String.length s1 + String.length s2)%nat.
Proof. induction s1 as [|a s1 IH]; simpl; [reflexivity|now rewrite IH]. Qed.

Lemma prefix_nil (s : string) : prefix "" s = true.
Proof. now destruct s. Qed.

Lemma prefix_cons (a b : ascii) (s1 s2 : string) :
  prefix (String a s1) (String b s2) = true <-> a = b /\ prefix s1 s2 = true.
Proof.
  simpl. destruct (ascii_dec a b) as [E|N]; split; try tauto; discriminate.
Qed.

Lemma prefix_length (x y : string) :
  prefix x y = true -> (String.length x <= String.length y)%nat.
Proof.
  intros H. destruct (prefix_split _ _ H) as (suf & ->). rewrite length_app. lia.
Qed.

Lemma prefix_mono (x y z : string) :
  prefix x y = true -> prefix x (y ++ z) = true.
Proof.
  intros H. destruct (prefix_split _ _ H) as (suf & ->).
  rewrite <- app_assoc. apply prefix_app.
Qed.

Lemma prefix_app_cancel (u v y : string) : prefix (u ++ v) (u ++ y) = prefix v y.
Proof.
  induction u as [|a u IH]; simpl; [reflexivity|].
  destruct (ascii_dec a a) as [_|N]; [exact IH|now destruct N].
Qed.

(** A prefix of [x ++ t] lies within [x] or goes on into [t]. *)
Lemma prefix_app_cases (p x t : string) :
  prefix p (x ++ t) = true ->
  prefix p x = true \/ exists v, p = x ++ v /\ prefix v t = true.
Proof.
  revert p. induction x as [|a x IH]; intros p H.
  - right. now exists p.
  - destruct p as [|b p]; [now left|].
    change (String a x ++ t) with (String a (x ++ t)) in H.
    apply prefix_cons in H. destruct H as [-> H].
    destruct (IH p H) as [Hp|(v & -> & Hv)].
    + left. now apply prefix_cons.
    + right. now exists v.
Qed.

Lemma in_suffixes (u v : string) : In v (suffixes (u ++ v)).
Proof.
  induction u as [|a u IH]; simpl.
  - destruct v; now left.
  - now right.
Qed.

Lemma none_prefix_of_spec (s : string) (l : list string) (v : string) :
  none_prefix_of s l = true -> In v l -> v <> "" -> prefix v s = false.
Proof.
  unfold none_prefix_of. rewrite forallb_forall. intros H Hin Hne.
  specialize (H v Hin). destruct v; [now destruct Hne|].
  now apply negb_true_iff in H.
Qed.

(** *** [replace] *)

Lemma replace_from_skip (old new u rest : string) :
  replace_from (String.length u) old new (u ++ rest) = replace_from 0 old new rest.
Proof.
  induction u as [|a u IH]; simpl; [|exact IH].
  destruct rest; reflexivity.
Qed.

Lemma replace_from_match (old new s : string) :
  old <> "" -> prefix old s = true ->
  exists rest, s = old ++ rest
               /\ replace_from 0 old new s = new ++ replace_from 0 old new rest.
Proof.
  intros Hne H. destruct (prefix_split _ _ H) as (rest & E). exists rest.
  split; [exact E|]. destruct old as [|a old']; [now destruct Hne|].
  subst s. change (String a old' ++ rest) with (String a (old' ++ rest)).
  change (String a (old' ++ rest)) with (String a old' ++ rest) in H.
  cbn [replace_from].
  change (String a (old' ++ rest)) with (String a old' ++ rest).
  rewrite H. cbn [String.length]. rewrite Nat.sub_succ, Nat.sub_0_r.
  now rewrite replace_from_skip.
Qed.

Lemma replace_from_nomatch (old new : string) (c : ascii) (s : string) :
  prefix old (String c s) = false ->
  replace_from 0 old new (String c s) = String c (replace_from 0 old new s).
Proof. intros H. cbn [replace_from]. now rewrite H. Qed.

Lemma replace_nonempty (old new s : string) :
  old <> "" -> replace old new s = replace_from 0 old new s.
Proof. intros H. destruct old; [now destruct H|reflexivity]. Qed.


Lemma contains_nil (sub : string) : sub <> "" -> contains sub "" = false.
Proof. intros H. destruct sub; [now destruct H|reflexivity]. Qed.

Lemma length_nonempty (s : string) : s <> "" -> (0 < String.length s)%nat.
Proof. intros H. destruct s; [now destruct H|simpl; lia]. Qed.

(** *** Replacing leaves no occurrence behind *)

Section CleanReplacement.

Variables old new : string.
Hypothesis Hclean : clean_replacement old new = true.

Let R (s : string) : string := replace_from 0 old new s.

Lemma clean_parts :
  contains old new = false
  /\ (String.length old < String.length new)%nat
  /\ none_prefix_of new (suffixes old) = true
  /\ none_prefix_of old (suffixes new) = true.
Proof.
  unfold clean_replacement in Hclean.
  apply andb_prop in Hclean. destruct Hclean as [H123 H4].
  apply andb_prop in H123. destruct H123 as [H12 H3].
  apply andb_prop in H12. destruct H12 as [H1 H2].
  apply negb_true_iff in H1. apply Nat.ltb_lt in H2. now repeat split.
Qed.

Lemma clean_old_nonempty : old <> "".
Proof.
  destruct clean_parts as (H1 & _). intros ->.
  rewrite contains_eq, prefix_nil in H1. discriminate.
Qed.

(** No end of [old] is a beginning of [new]. *)
Lemma clean_suffix_old (u v : string) :
  old = u ++ v -> v <> "" -> prefix v new = false.
Proof.
  destruct clean_parts as (_ & _ & H3 & _). intros E Hv.
  apply (none_prefix_of_spec new (suffixes old)); [exact H3| |exact Hv].
  rewrite E. apply in_suffixes.
Qed.

(** No end of [new] is a beginning of [old]. *)
Lemma clean_suffix_new (w x : string) :
  new = w ++ x -> x <> "" -> prefix x old = false.
Proof.
  destruct clean_parts as (_ & _ & _ & H4). intros E Hx.
  apply (none_prefix_of_spec old (suffixes new)); [exact H4| |exact Hx].
  rewrite E. apply in_suffixes.
Qed.

(** [old] does not start within [new] when it does not occur after it. *)
Lemma clean_after_new (T : string) :
  contains old T = false ->
  forall x w, new = w ++ x -> contains old (x ++ T) = false.
Proof.
  intros HT. induction x as [|a x IH]; intros w E; [exact HT|].
  rewrite contains_eq.
  destruct (prefix old (String a x ++ T)) eqn:P.
  - exfalso. destruct (prefix_app_cases _ _ _ P) as [Hp|(v & Ev & _)].
    + destruct clean_parts as (H1 & _).
      destruct (prefix_split _ _ Hp) as (r & Er).
      assert (S : Substring old new) by (exists w, r; now rewrite E, Er).
      apply contains_iff in S. rewrite S in H1. discriminate.
    + assert (Hx : prefix (String a x) old = true).
      { rewrite Ev. apply prefix_app. }
      rewrite (clean_suffix_new w (String a x) E) in Hx; discriminate.
  - change (String a x ++ T) with (String a (x ++ T)).
    apply (IH (w ++ String a "")). rewrite E, <- app_assoc. reflexivity.
Qed.

(** An occurrence of [old] that starts in text already passed and ends in
    the rewritten text was there before the rewriting. *)
Lemma clean_before (s : string) :
  forall u, prefix old (u ++ R s) = true -> prefix old (u ++ s) = true.
Proof.
  induction s as [|c s IH]; intros u H; [exact H|].
  destruct (prefix old (String c s)) eqn:P.
  - destruct (replace_from_match old new _ clean_old_nonempty P) as (rest & Es & Er).
    unfold R in H. rewrite Er in H. fold (R rest) in H.
    destruct (prefix_app_cases _ _ _ H) as [Hu|(v & Ev & Hv)];
      [now apply prefix_mono|].
    destruct v as [|b v].
    + rewrite app_nil_r in Ev. subst u. apply prefix_app.
    + exfalso. destruct (prefix_app_cases _ _ _ Hv) as [Hn|(v' & Ev' & _)].
      * rewrite (clean_suffix_old u (String b v) Ev) in Hn; discriminate.
      * destruct clean_parts as (_ & H2 & _).
        apply (f_equal String.length) in Ev, Ev'.
        rewrite length_app in Ev, Ev'. lia.
  - unfold R in H. rewrite (replace_from_nomatch _ _ _ _ P) in H. fold (R s) in H.
    change (u ++ String c (R s)) with (u ++ String c "" ++ R s) in H.
    rewrite app_assoc in H. apply IH in H.
    rewrite <- app_assoc in H. exact H.
Qed.

Lemma clean_replace_from (n : nat) :
  forall s, (String.length s <= n)%nat -> contains old (R s) = false.
Proof.
  induction n as [|n IH]; intros s Hn.
  - destruct s; [|simpl in Hn; lia].
    apply contains_nil, clean_old_nonempty.
  - destruct s as [|c s].
    + apply contains_nil, clean_old_nonempty.
    + destruct (prefix old (String c s)) eqn:P.
      * destruct (replace_from_match old new _ clean_old_nonempty P)
          as (rest & Es & Er).
        unfold R. rewrite Er. fold (R rest).
        apply (clean_after_new (R rest)) with (w := ""); [|reflexivity].
        apply IH. apply (f_equal String.length) in Es.
        rewrite length_app in Es.
        pose proof (length_nonempty _ clean_old_nonempty). simpl in Es, Hn. lia.
      * unfold R. rewrite (replace_from_nomatch _ _ _ _ P). fold (R s).
        rewrite contains_eq.
        destruct (prefix old (String c (R s))) eqn:P'.
        -- apply (clean_before s (String c "")) in P'.
           change (String c "" ++ s) with (String c s) in P'.
           rewrite P in P'. discriminate.
        -- apply IH. simpl in Hn. lia.
Qed.

(** After [replace], [old] occurs nowhere. *)
Lemma clean_replace (s : string) : contains old (replace old new s) = false.
Proof.
  rewrite (replace_nonempty _ _ _ clean_old_nonempty).
  now apply (clean_replace_from (String.length s)).
Qed.

End CleanReplacement.


(** *** The first occurrence *)

Lemma first_at_cons (old pre s : string) (c : ascii) :
  prefix old (String c s) = false -> first_at old pre s ->
  first_at old (String c pre) (String c s).
Proof.
  intros P [(rest & E) Hmin]. split.
  - exists rest. simpl. now rewrite E.
  - intros pre' rest' E'. destruct pre' as [|c' pre'].
    + simpl in E'. rewrite E', prefix_app in P. discriminate.
    + simpl in E'. inversion E'; subst. simpl. apply le_n_S. now apply (Hmin pre' rest').
Qed.

Lemma first_at_here (old s : string) :
  prefix old s = true -> first_at old "" s.
Proof.
  intros P. destruct (prefix_split _ _ P) as (rest & E). split.
  - now exists rest.
  - intros. simpl. lia.
Qed.

(** [replace] rewrites the first occurrence and goes on after it. *)
Lemma replace_first (old new s : string) :
  old <> "" -> contains old s = true ->
  exists pre rest,
    s = pre ++ old ++ rest /\ first_at old pre s
    /\ replace old new s = pre ++ new ++ replace old new rest.
Proof.
  intros Hne. rewrite !(replace_nonempty _ _ _ Hne).
  induction s as [|c s IH]; intros H.
  - rewrite contains_nil in H by exact Hne. discriminate.
  - rewrite contains_eq in H. destruct (prefix old (String c s)) eqn:P.
    + destruct (replace_from_match old new _ Hne P) as (rest & Es & Er).
      exists "", rest. rewrite (replace_nonempty _ _ _ Hne).
      repeat split; [exact Es| |intros; simpl; lia|exact Er].
      now exists rest.
    + destruct (IH H) as (pre & rest & E & F & Er).
      exists (String c pre), rest. rewrite (replace_nonempty _ _ _ Hne) in *.
      split; [simpl; now rewrite <- E|]. split; [now apply first_at_cons|].
      rewrite (replace_from_nomatch _ _ _ _ P), Er. reflexivity.
Qed.

(** [find] gives the place of the first occurrence, if there is one. *)
Lemma find_some (sub s : string) (i : nat) :
  find sub s = Some i ->
  exists pre, String.length pre = i /\ first_at sub pre s.
Proof.
  revert i. induction s as [|c s IH]; intros i H.
  - cbn [find] in H. destruct (prefix sub "") eqn:P; [|discriminate].
    inversion H; subst. exists "". split; [reflexivity|now apply first_at_here].
  - cbn [find] in H. destruct (prefix sub (String c s)) eqn:P.
    + inversion H; subst. exists "". split; [reflexivity|now apply first_at_here].
    + destruct (find sub s) as [j|] eqn:F; [|discriminate].
      inversion H; subst. destruct (IH j eq_refl) as (pre & <- & Hf).
      exists (String c pre). split; [reflexivity|now apply first_at_cons].
Qed.

Lemma find_none (sub s : string) :
  find sub s = None <-> contains sub s = false.
Proof.
  induction s as [|c s IH].
  - cbn [find contains]. destruct (prefix sub ""); split; intros; congruence.
  - cbn [find contains]. destruct (prefix sub (String c s)).
    + split; intros; congruence.
    + rewrite <- IH. destruct (find sub s); simpl; split; intros; congruence.
Qed.

(** *** Slices *)

Lemma substring_skip (pre t : string) (m : nat) :
  substring (String.length pre) m (pre ++ t) = substring 0 m t.
Proof. induction pre as [|a pre IH]; simpl; [reflexivity|exact IH]. Qed.

Lemma substring_app (a t : string) (m : nat) :
  substring 0 (String.length a + m) (a ++ t) = a ++ substring 0 m t.
Proof. induction a as [|c a IH]; simpl; [reflexivity|now rewrite IH]. Qed.

Lemma substring_length_le (t : string) :
  forall m, (String.length (substring 0 m t) <= m)%nat.
Proof.
  induction t as [|c t IH]; intros [|m]; simpl; try lia.
  specialize (IH m). lia.
Qed.


(** *** [strip] *)

Lemma lstrip_split (s : string) :
  exists a, s = a ++ lstrip s /\ all_space a = true.
Proof.
  induction s as [|c s (a & E & Ha)]; [now exists ""|].
  simpl. destruct (is_space c) eqn:Hc.
  - exists (String c a). simpl. now rewrite <- E, Hc, Ha.
  - now exists "".
Qed.

Lemma lstrip_blank_app (a t : string) :
  all_space a = true -> lstrip (a ++ t) = lstrip t.
Proof.
  induction a as [|c a IH]; simpl; [reflexivity|].
  intros H. apply andb_prop in H. destruct H as [Hc Ha]. now rewrite Hc, IH.
Qed.

Lemma lstrip_nonspace (c : ascii) (t : string) :
  is_space c = false -> lstrip (String c t) = String c t.
Proof. intros H. simpl. now rewrite H. Qed.

Lemma rstrip_cons (c : ascii) (s : string) :
  rstrip (String c s)
  = match rstrip s with
    | EmptyString => if is_space c then EmptyString else String c EmptyString
    | String _ _ => String c (rstrip s)
    end.
Proof. simpl. now destruct (rstrip s). Qed.

Lemma rstrip_split (s : string) :
  exists b, s = rstrip s ++ b /\ all_space b = true.
Proof.
  induction s as [|c s (b & E & Hb)]; [now exists ""|].
  rewrite rstrip_cons. destruct (rstrip s) as [|d r] eqn:R.
  - simpl in E. destruct (is_space c) eqn:Hc.
    + exists (String c b). split; [simpl; now f_equal|]. simpl. now rewrite Hc, Hb.
    + exists b. split; [simpl; now f_equal|exact Hb].
  - exists b. split; [simpl; now f_equal|exact Hb].
Qed.

Lemma rstrip_blank (b : string) : all_space b = true -> rstrip b = "".
Proof.
  induction b as [|c b IH]; [reflexivity|]. simpl all_space.
  intros H. apply andb_prop in H. destruct H as [Hc Hb].
  now rewrite rstrip_cons, (IH Hb), Hc.
Qed.

Lemma rstrip_app_blank (t b : string) :
  all_space b = true -> rstrip (t ++ b) = rstrip t.
Proof.
  intros Hb. induction t as [|c t IH]; [now apply rstrip_blank|].
  change (String c t ++ b) with (String c (t ++ b)). now rewrite !rstrip_cons, IH.
Qed.

(** [strip] keeps a beginning that ends with a character that is no white
    space. *)
Lemma rstrip_keeps_prefix (q : string) (c : ascii) (r : string) :
  is_space c = false ->
  prefix (q ++ String c "") (rstrip ((q ++ String c "") ++ r)) = true.
Proof.
  intros Hc. induction q as [|d q IH].
  - change (("" ++ String c "") ++ r) with (String c r). rewrite rstrip_cons, Hc.
    destruct (rstrip r); apply prefix_cons; split; try reflexivity; apply prefix_nil.
  - change ((String d q ++ String c "") ++ r)
      with (String d ((q ++ String c "") ++ r)).
    rewrite rstrip_cons.
    destruct (rstrip ((q ++ String c "") ++ r)) as [|x y] eqn:R.
    + destruct q; discriminate.
    + change (String d q ++ String c "") with (String d (q ++ String c "")).
      apply prefix_cons. now split.
Qed.

(** A line strips to [core] exactly when it is [core] between white space,
    for a [core] that begins and ends with characters that are none. *)
Lemma strip_eq_iff (h : ascii) (m s : string) :
  is_space h = false -> rstrip (String h m) = String h m ->
  (strip s = String h m
   <-> exists a b,
         s = a ++ String h m ++ b /\ all_space a = true /\ all_space b = true).
Proof.
  intros Hh Hcore. unfold strip. split.
  - intros H. destruct (lstrip_split s) as (a & Ea & Ha).
    destruct (rstrip_split (lstrip s)) as (b & Eb & Hb).
    exists a, b. rewrite H in Eb. rewrite Ea at 1. now rewrite Eb.
  - intros (a & b & -> & Ha & Hb).
    rewrite (lstrip_blank_app _ _ Ha).
    change (String h m ++ b) with (String h (m ++ b)).
    rewrite (lstrip_nonspace _ _ Hh).
    change (String h (m ++ b)) with (String h m ++ b).
    now rewrite (rstrip_app_blank _ _ Hb).
Qed.

(** The stripped line begins with [p] exactly when the line does after its
    leading white space, for a [p] that begins and ends with characters
    that are none. *)
Lemma strip_prefix_iff (h l : ascii) (m s : string) :
  is_space h = false -> is_space l = false ->
  let p := String h "" ++ m ++ String l "" in
  (prefix p (strip s) = true
   <-> exists a r, s = a ++ p ++ r /\ all_space a = true).
Proof.
  intros Hh Hl p. unfold strip. split.
  - intros H. destruct (lstrip_split s) as (a & Ea & Ha).
    destruct (rstrip_split (lstrip s)) as (b & Eb & Hb).
    destruct (prefix_split _ _ H) as (r0 & Er).
    exists a, (r0 ++ b). split; [|exact Ha].
    rewrite Ea at 1. rewrite Eb, Er. now rewrite <- app_assoc.
  - intros (a & r & -> & Ha).
    rewrite (lstrip_blank_app _ _ Ha).
    change (p ++ r) with (String h ((m ++ String l "") ++ r)).
    rewrite (lstrip_nonspace _ _ Hh).
    change (String h ((m ++ String l "") ++ r))
      with (((String h m) ++ String l "") ++ r).
    change p with ((String h m) ++ String l "").
    now apply rstrip_keeps_prefix.
Qed.


Example replace_overlapping : replace "aa" "b" "aaa" = "ba".
Proof. reflexivity. Qed.

Example replace_all : replace "ab" "xyz" "abcabab" = "xyzcxyzxyz".
Proof. reflexivity. Qed.

Example replace_empty : replace "" "-" "abc" = "-a-b-c-".
Proof. reflexivity. Qed.

Example find_second : find "lo" "hello lo" = Some 3.
Proof. reflexivity. Qed.

Example strip_both : strip (String (ascii_of_nat 9) "  } , x  " ++ String (ascii_of_nat 10) "") = "} , x".
Proof. reflexivity. Qed.


End PyStrFacts.

(** ** Facts about fix_app_context.py *)

Module FixAppContextFacts.

Import PyStr PyStrFacts FixAppContext.
Local Open Scope string_scope.

Lemma main_no_match (content : string) :
  contains broken_block content = false ->
  main content
  = Printed "Could not find the broken block in AppContext.tsx"
    :: match find start_marker content with
       | Some idx =>
           [Printed "Context around setRequestFocusOnCodeCallback:";
            Printed (substring idx 300 content)]
       | None => []
       end.
Proof. intros H. unfold main. now rewrite H. Qed.

(** C9: when the broken block does not occur in the content read from the
    file, the script only prints: no event of the run is a write, the file
    holds the same content afterwards, and the first line printed says that
    the block was not found. *)
Theorem no_match_no_write (content : string) :
  ~ Substring broken_block content ->
  forallb (fun e => negb (is_write e)) (main content) = true
  /\ file_after content (main content) = content
  /\ exists diag,
       main content
       = Printed "Could not find the broken block in AppContext.tsx" :: diag.
Proof.
  intros H.
  assert (Hc : contains broken_block content = false).
  { destruct (contains broken_block content) eqn:E; [|reflexivity].
    apply contains_iff in E. contradiction. }
  rewrite (main_no_match content Hc).
  destruct (find start_marker content) as [idx|]; repeat split; eauto.
Qed.

Lemma no_match_no_write_witness :
  file_after "const x = 1;" (main "const x = 1;") = "const x = 1;".
Proof.
  assert (H : ~ Substring broken_block "const x = 1;").
  { intros S. apply contains_iff in S. vm_compute in S. discriminate. }
  exact (proj1 (proj2 (no_match_no_write "const x = 1;" H))).
Defined.

(** When the block is there, the file is rewritten. *)
Example match_writes :
  main ("a" ++ broken_block ++ "b")
  = [Written ("a" ++ replacement_block ++ "b");
     Printed "Successfully fixed AppContext.tsx"].
Proof. vm_compute. reflexivity. Qed.

(** *** When the block is there *)

Lemma clean_blocks : clean_replacement broken_block replacement_block = true.
Proof. vm_compute. reflexivity. Qed.

Lemma broken_block_nonempty : broken_block <> "".
Proof. unfold broken_block. discriminate. Qed.

Lemma main_match (content : string) :
  contains broken_block content = true ->
  main content
  = [Written (replace broken_block replacement_block content);
     Printed "Successfully fixed AppContext.tsx"].
Proof. intros H. unfold main. now rewrite H. Qed.

(** X7: when the broken block occurs in the content, the script writes the
    file once and then reports success; what it writes keeps the text
    before the first occurrence, has the replacement block in its place,
    and goes on with the rest of the content, rewritten the same way. *)
Theorem match_rewrites_from_first (content : string) :
  Substring broken_block content ->
  exists pre rest,
    content = pre ++ broken_block ++ rest
    /\ first_at broken_block pre content
    /\ main content
       = [Written (pre ++ replacement_block
                   ++ replace broken_block replacement_block rest);
          Printed "Successfully fixed AppContext.tsx"].
Proof.
  intros H. apply contains_iff in H.
  destruct (replace_first broken_block replacement_block content
              broken_block_nonempty H) as (pre & rest & E & F & Er).
  exists pre, rest. split; [exact E|]. split; [exact F|].
  now rewrite (main_match content H), Er.
Qed.

Lemma match_rewrites_from_first_witness :
  exists pre rest,
    "a" ++ broken_block ++ "b" = pre ++ broken_block ++ rest
    /\ first_at broken_block pre ("a" ++ broken_block ++ "b")
    /\ main ("a" ++ broken_block ++ "b")
       = [Written (pre ++ replacement_block
                   ++ replace broken_block replacement_block rest);
          Printed "Successfully fixed AppContext.tsx"].
Proof.
  apply (match_rewrites_from_first ("a" ++ broken_block ++ "b")).
  exists "a", "b". reflexivity.
Defined.

(** X8: after a run the broken block occurs nowhere in the file, whatever
    the content was; a second run on that file finds nothing to fix, writes
    nothing and leaves the file as the first run left it. *)
Theorem second_run_writes_nothing (content : string) :
  contains broken_block (file_after content (main content)) = false
  /\ forallb (fun e => negb (is_write e))
       (main (file_after content (main content))) = true
  /\ file_after (file_after content (main content))
       (main (file_after content (main content)))
     = file_after content (main content).
Proof.
  assert (H : contains broken_block (file_after content (main content)) = false).
  { destruct (contains broken_block content) eqn:E.
    - rewrite (main_match content E). cbn [file_after].
      apply clean_replace, clean_blocks.
    - rewrite (main_no_match content E).
      destruct (find start_marker content); exact E. }
  split; [exact H|]. rewrite (main_no_match _ H).
  destruct (find start_marker (file_after content (main content))); now split.
Qed.

(** *** The diagnostic *)

(** X9: when the broken block does not occur, the script prints that it
    could not find it; if the marker occurs in the content it then prints a
    heading and the content from the first occurrence of the marker on, cut
    after 300 characters (the marker and up to 265 characters after it); if
    the marker does not occur it prints nothing more. *)
Theorem diagnostic_shows_marker_context (content : string) :
  ~ Substring broken_block content ->
  (Substring start_marker content ->
   exists pre rest,
     content = pre ++ start_marker ++ rest
     /\ first_at start_marker pre content
     /\ main content
        = [Printed "Could not find the broken block in AppContext.tsx";
           Printed "Context around setRequestFocusOnCodeCallback:";
           Printed (start_marker ++ substring 0 265 rest)])
  /\ (~ Substring start_marker content ->
      main content = [Printed "Could not find the broken block in AppContext.tsx"]).
Proof.
  intros H.
  assert (Hc : contains broken_block content = false).
  { destruct (contains broken_block content) eqn:E; [|reflexivity].
    apply contains_iff in E. contradiction. }
  rewrite (main_no_match content Hc). split.
  - intros Hm. destruct (find start_marker content) as [idx|] eqn:F.
    + destruct (find_some _ _ _ F) as (pre & <- & Hf).
      destruct Hf as [(rest & E) Hmin]. exists pre, rest.
      split; [exact E|]. split; [split; [now exists rest|exact Hmin]|].
      rewrite E at 1. rewrite substring_skip.
      change 300 with (String.length start_marker + 265)%nat.
      now rewrite substring_app.
    + apply find_none in F. apply contains_iff in Hm. rewrite Hm in F. discriminate.
  - intros Hm. destruct (find start_marker content) as [idx|] eqn:F; [|reflexivity].
    exfalso. apply Hm. destruct (find_some _ _ _ F) as (pre & _ & (rest & E) & _).
    now exists pre, rest.
Qed.

Lemma diagnostic_shows_marker_context_witness :
  main "  const x = 1;"
  = [Printed "Could not find the broken block in AppContext.tsx"].
Proof.
  assert (H : ~ Substring broken_block "  const x = 1;").
  { intros S. apply contains_iff in S. vm_compute in S. discriminate. }
  apply (proj2 (diagnostic_shows_marker_context "  const x = 1;" H)).
  intros S. apply contains_iff in S. vm_compute in S. discriminate.
Defined.

Example diagnostic_ex :
  main "ab const setRequestFocusOnCodeCallback = f;"
  = [Printed "Could not find the broken block in AppContext.tsx";
     Printed "Context around setRequestFocusOnCodeCallback:";
     Printed "const setRequestFocusOnCodeCallback = f;"].
Proof. vm_compute. reflexivity. Qed.


End FixAppContextFacts.

(** ** Facts about restore_app_context.py *)

Module RestoreAppContextFacts.

Import PyStr RestoreAppContext.
Local Open Scope string_scope.

Lemma getitem_inr (l : list string) (k : nat) :
  (k < List.length l)%nat -> exists x, getitem l k = inr x.
Proof.
  intros H. unfold getitem. destruct (nth_error l k) eqn:E; [now eexists|].
  apply nth_error_None in E. lia.
Qed.

Lemma getitem_inl (l : list string) (k : nat) :
  (List.length l <= k)%nat -> getitem l k = inl IndexError.
Proof.
  intros H. unfold getitem. apply nth_error_None in H. now rewrite H.
Qed.

Lemma setitem_inr (l : list string) (k : nat) (v : string) :
  (k < List.length l)%nat ->
  exists l', setitem l k v = inr l' /\ List.length l' = List.length l.
Proof.
  intros H. unfold setitem. apply Nat.ltb_lt in H as Hb. rewrite Hb.
  eexists. split; [reflexivity|].
  rewrite length_app, length_firstn. cbn [List.length]. rewrite length_skipn. lia.
Qed.

Lemma apply_fix_raises_nothing (lines : list string) (printed : list Event) :
  (297 <= List.length lines)%nat -> raised (apply_fix lines printed) = None.
Proof.
  intros H. unfold apply_fix.
  destruct (setitem_inr lines 295 "" ltac:(lia)) as (l1 & E1 & L1). rewrite E1.
  destruct (setitem_inr l1 296 (new_code ++ newline) ltac:(lia)) as (l2 & E2 & L2).
  now rewrite E2.
Qed.

(** C10: the script reads [lines[294]], [lines[295]] and [lines[296]]
    before anything else.  With fewer than 297 lines one of the three raises
    [IndexError] and the run ends there, having printed and written
    nothing; with 297 lines or more no [IndexError] is raised, neither by
    the three reads nor by the two assignments of the fix. *)
Theorem index_error_iff_short (lines : list string) :
  ((List.length lines < 297)%nat ->
     main lines = mkOutcome [] (Some IndexError))
  /\ ((297 <= List.length lines)%nat -> raised (main lines) = None)
  /\ (raised (main lines) = None <-> (297 <= List.length lines)%nat).
Proof.
  assert (Hshort : (List.length lines < 297)%nat ->
                   main lines = mkOutcome [] (Some IndexError)).
  { intros H. unfold main.
    destruct (getitem lines 294) as [[]|l294] eqn:E0; [reflexivity|].
    destruct (getitem lines 295) as [[]|l295] eqn:E1; [reflexivity|].
    destruct (getitem lines 296) as [[]|l296] eqn:E2; [reflexivity|].
    rewrite getitem_inl in E2 by lia. discriminate. }
  assert (Hlong : (297 <= List.length lines)%nat -> raised (main lines) = None).
  { intros H. unfold main.
    destruct (getitem_inr lines 294 ltac:(lia)) as (l294 & ->).
    destruct (getitem_inr lines 295 ltac:(lia)) as (l295 & ->).
    destruct (getitem_inr lines 296 ltac:(lia)) as (l296 & ->).
    cbv zeta.
    destruct (String.eqb (strip l295) "}" && prefix "}, [selectedLanguage" (strip l296))%bool.
    - now apply apply_fix_raises_nothing.
    - reflexivity. }
  split; [exact Hshort|]. split; [exact Hlong|]. split; [|exact Hlong].
  intros Hr. destruct (Nat.lt_ge_cases (List.length lines) 297) as [Hlt|Hge]; [|exact Hge].
  rewrite (Hshort Hlt) in Hr. discriminate.
Qed.

Lemma index_error_iff_short_witness :
  main (repeat "}" 296) = mkOutcome [] (Some IndexError)
  /\ raised (main (repeat "}" 297)) = None.
Proof.
  split.
  - apply (proj1 (index_error_iff_short (repeat "}" 296))).
    rewrite repeat_length. lia.
  - apply (proj1 (proj2 (index_error_iff_short (repeat "}" 297)))).
    rewrite repeat_length. lia.
Defined.

(** A file of 297 lines whose lines 296 and 297 are the broken ones is
    patched; one whose lines differ is left alone. *)
Example patch_applies :
  events (main (repeat "x" 295 ++ ["}"; "  }, [selectedLanguage]);"]))
  = [Printed "Line 295: x"; Printed "Line 296: }";
     Printed "Line 297: }, [selectedLanguage]);";
     Printed "Found broken block. Applying fix...";
     Written (String.concat "" (repeat "x" 295 ++ [""; new_code ++ newline]));
     Printed "Successfully restored AppContext.tsx"].
Proof. vm_compute. reflexivity. Qed.

Example patch_aborts :
  main (repeat "x" 297)
  = mkOutcome [Printed "Line 295: x"; Printed "Line 296: x"; Printed "Line 297: x";
               Printed "Context mismatch. Aborting."] None.
Proof. vm_compute. reflexivity. Qed.

(** *** What a run does to a long enough file *)

Lemma concat_cons (x : string) (l : list string) :
  String.concat "" (x :: l) = x ++ String.concat "" l.
Proof.
  destruct l; simpl; [|reflexivity]. now rewrite PyStrFacts.app_nil_r.
Qed.

Lemma concat_app (l1 l2 : list string) :
  String.concat "" (l1 ++ l2) = String.concat "" l1 ++ String.concat "" l2.
Proof.
  induction l1 as [|x l1 IH]; [reflexivity|].
  change ((x :: l1) ++ l2)%list with (x :: (l1 ++ l2))%list.
  now rewrite !concat_cons, IH, PyStrFacts.app_assoc.
Qed.

Lemma getitem_some (l : list string) (k : nat) (x : string) :
  nth_error l k = Some x -> getitem l k = inr x.
Proof. intros H. unfold getitem. now rewrite H. Qed.

Lemma main_long (lines : list string) (l294 l295 l296 : string) :
  nth_error lines 294 = Some l294 ->
  nth_error lines 295 = Some l295 ->
  nth_error lines 296 = Some l296 ->
  main lines
  = if broken_context l295 l296
    then apply_fix lines (shown l294 l295 l296)
    else mkOutcome (shown l294 l295 l296 ++ [Printed "Context mismatch. Aborting."])%list
                   None.
Proof.
  intros H0 H1 H2. unfold main.
  now rewrite (getitem_some _ _ _ H0), (getitem_some _ _ _ H1), (getitem_some _ _ _ H2).
Qed.

Lemma main_short (lines : list string) :
  (List.length lines < 297)%nat -> main lines = mkOutcome [] (Some IndexError).
Proof.
  intros H. unfold main.
  destruct (getitem lines 294) as [[]|l294] eqn:E0; [reflexivity|].
  destruct (getitem lines 295) as [[]|l295] eqn:E1; [reflexivity|].
  destruct (getitem lines 296) as [[]|l296] eqn:E2; [reflexivity|].
  rewrite getitem_inl in E2 by lia. discriminate.
Qed.

Lemma setitem_eq (l : list string) (k : nat) (v : string) :
  (k < List.length l)%nat ->
  setitem l k v = inr (firstn k l ++ v :: skipn (S k) l)%list.
Proof. intros H. unfold setitem. apply Nat.ltb_lt in H. now rewrite H. Qed.

(** The two assignments of the fix, one after the other. *)
Lemma two_assignments (lines : list string) (v : string) :
  (297 <= List.length lines)%nat ->
  exists l1,
    setitem lines 295 "" = inr l1
    /\ setitem l1 296 v
       = inr (firstn 295 lines ++ "" :: v :: skipn 297 lines)%list.
Proof.
  intros H. eexists. split; [apply setitem_eq; lia|].
  assert (L : List.length (firstn 295 lines) = 295%nat).
  { rewrite length_firstn. lia. }
  rewrite setitem_eq.
  - f_equal.
    rewrite firstn_app, skipn_app, L.
    rewrite (firstn_all2 (n := 296)) by lia.
    rewrite (skipn_all2 (n := 297)) by lia.
    change (296 - 295)%nat with 1%nat. change (297 - 295)%nat with 2%nat.
    change (skipn 2 ("" :: skipn 296 lines)) with (skipn 1 (skipn 296 lines)).
    change (firstn 1 ("" :: skipn 296 lines)) with [""].
    rewrite skipn_skipn. change (1 + 296)%nat with 297%nat.
    rewrite <- List.app_assoc. reflexivity.
  - rewrite List.length_app, L. cbn [List.length]. rewrite length_skipn. lia.
Qed.

Lemma apply_fix_eq (lines : list string) (printed : list Event) :
  (297 <= List.length lines)%nat ->
  apply_fix lines printed
  = mkOutcome
      (printed
       ++ [Printed "Found broken block. Applying fix...";
           Written (String.concat "" (firstn 295 lines)
                    ++ new_code ++ newline
                    ++ String.concat "" (skipn 297 lines));
           Printed "Successfully restored AppContext.tsx"])%list
      None.
Proof.
  intros H. unfold apply_fix.
  destruct (two_assignments lines (new_code ++ newline) H) as (l1 & E1 & E2).
  rewrite E1, E2. f_equal. rewrite <- List.app_assoc. f_equal. f_equal. f_equal.
  rewrite concat_app, !concat_cons. cbn [append].
  now rewrite <- PyStrFacts.app_assoc.
Qed.

Lemma nth_error_long (lines : list string) (k : nat) :
  (k < List.length lines)%nat -> exists x, nth_error lines k = Some x.
Proof.
  intros H. destruct (nth_error lines k) eqn:E; [now eexists|].
  apply nth_error_None in E. lia.
Qed.


(** X10: when the file has its 297 lines but line 296 is not a lone closing
    brace or line 297 does not begin with the expected text (white space
    around them aside), the script prints the three lines and "Context
    mismatch. Aborting.", raises nothing and never writes the file. *)
Theorem mismatch_never_writes (lines : list string) (l294 l295 l296 : string) :
  nth_error lines 294 = Some l294 ->
  nth_error lines 295 = Some l295 ->
  nth_error lines 296 = Some l296 ->
  broken_context l295 l296 = false ->
  main lines
  = mkOutcome (shown l294 l295 l296 ++ [Printed "Context mismatch. Aborting."])%list
              None
  /\ forallb (fun e => negb (is_write e)) (events (main lines)) = true
  /\ file_after (String.concat "" lines) (events (main lines))
     = String.concat "" lines.
Proof.
  intros H0 H1 H2 Hc. rewrite (main_long lines l294 l295 l296 H0 H1 H2), Hc.
  repeat split.
Qed.

Lemma mismatch_never_writes_witness :
  forallb (fun e => negb (is_write e)) (events (main (repeat "x" 300))) = true.
Proof.
  apply (mismatch_never_writes (repeat "x" 300) "x" "x" "x"
           eq_refl eq_refl eq_refl eq_refl).
Defined.

(** X11: when the test on lines 296 and 297 succeeds, the script writes the
    file once: the first 295 lines as they were, then the new code and a
    line feed in place of lines 296 and 297, then every line from line 298
    on as it was; it announces the fix before and reports success after. *)
Theorem patch_replaces_two_lines (lines : list string) (l294 l295 l296 : string) :
  nth_error lines 294 = Some l294 ->
  nth_error lines 295 = Some l295 ->
  nth_error lines 296 = Some l296 ->
  broken_context l295 l296 = true ->
  main lines
  = mkOutcome
      (shown l294 l295 l296
       ++ [Printed "Found broken block. Applying fix...";
           Written (String.concat "" (firstn 295 lines)
                    ++ new_code ++ newline
                    ++ String.concat "" (skipn 297 lines));
           Printed "Successfully restored AppContext.tsx"])%list
      None.
Proof.
  intros H0 H1 H2 Hc. rewrite (main_long lines l294 l295 l296 H0 H1 H2), Hc.
  apply apply_fix_eq.
  assert (H : nth_error lines 296 <> None) by congruence.
  apply nth_error_Some in H. lia.
Qed.

Lemma patch_replaces_two_lines_witness :
  file_after "" (events (main (repeat "a" 295 ++ [" }  "; "}, [selectedLanguage]);"; "z"])%list))
  = String.concat "" (repeat "a" 295) ++ new_code ++ newline ++ "z".
Proof.
  rewrite (patch_replaces_two_lines
             (repeat "a" 295 ++ [" }  "; "}, [selectedLanguage]);"; "z"])%list
             "a" " }  " "}, [selectedLanguage]);" eq_refl eq_refl eq_refl eq_refl).
  reflexivity.
Defined.

Lemma closing_brace_line (s : string) :
  String.eqb (strip s) "}" = true
  <-> exists a b, s = a ++ "}" ++ b /\ all_space a = true /\ all_space b = true.
Proof.
  rewrite String.eqb_eq. now apply (PyStrFacts.strip_eq_iff "}" "" s).
Qed.

Lemma dependency_line (s : string) :
  prefix "}, [selectedLanguage" (strip s) = true
  <-> exists a r, s = a ++ "}, [selectedLanguage" ++ r /\ all_space a = true.
Proof.
  now apply (PyStrFacts.strip_prefix_iff "}" "e" ", [selectedLanguag" s).
Qed.

(** X12: the script writes the file exactly when the file has a line 296
    that is a closing brace with nothing but white space around it and a
    line 297 that, after its leading white space, begins with
    "}, [selectedLanguage". *)
Theorem writes_iff_broken_context (lines : list string) :
  existsb is_write (events (main lines)) = true
  <-> exists l295 l296 a b a' r,
        nth_error lines 295 = Some l295
        /\ nth_error lines 296 = Some l296
        /\ l295 = a ++ "}" ++ b /\ all_space a = true /\ all_space b = true
        /\ l296 = a' ++ "}, [selectedLanguage" ++ r /\ all_space a' = true.
Proof.
  split.
  - intros H. destruct (Nat.lt_ge_cases (List.length lines) 297) as [Hlt|Hge].
    { rewrite (main_short lines Hlt) in H. discriminate. }
    destruct (nth_error_long lines 294 ltac:(lia)) as (l294 & H0).
    destruct (nth_error_long lines 295 ltac:(lia)) as (l295 & H1).
    destruct (nth_error_long lines 296 ltac:(lia)) as (l296 & H2).
    rewrite (main_long lines l294 l295 l296 H0 H1 H2) in H.
    destruct (broken_context l295 l296) eqn:Hc; [|discriminate].
    unfold broken_context in Hc. apply andb_prop in Hc. destruct Hc as [Hc1 Hc2].
    apply closing_brace_line in Hc1. destruct Hc1 as (a & b & E1 & Ha & Hb).
    apply dependency_line in Hc2. destruct Hc2 as (a' & r & E2 & Ha').
    exists l295, l296, a, b, a', r. now repeat split.
  - intros (l295 & l296 & a & b & a' & r & H1 & H2 & E1 & Ha & Hb & E2 & Ha').
    assert (Hl : (296 < List.length lines)%nat).
    { apply nth_error_Some. congruence. }
    destruct (nth_error_long lines 294 ltac:(lia)) as (l294 & H0).
    assert (Hc : broken_context l295 l296 = true).
    { unfold broken_context. apply andb_true_intro. split.
      - apply closing_brace_line. now exists a, b.
      - apply dependency_line. now exists a', r. }
    rewrite (main_long lines l294 l295 l296 H0 H1 H2), Hc.
    rewrite apply_fix_eq by lia. reflexivity.
Qed.


End RestoreAppContextFacts.
